(** * py_style.models: Theme, Console, ProgressBar and Table

    A shallow embedding of [src/py_style/models.py].  Python objects are
    mutable; every method is therefore a computation over the state of
    the object it is called on, which either returns normally or raises.
    Strings are [string], Python integers are [Z], a [dict] with string
    keys is a [gmap string _], and the row lists of a [Table] live in a
    store of list objects addressed by reference. *)

From Stdlib Require Import ZArith String Ascii List Lia.
From stdpp Require Import base option list gmap strings.

Open Scope string_scope.
Open Scope Z_scope.
Open Scope list_scope.

(** ** Exceptions and the method monad *)

(** The built-in exceptions the module can raise. *)
Inductive exn : Type :=
  | KeyError (key : string)      (* dict subscript on a missing key *)
  | IndexError                   (* list subscript, del or pop out of range *)
  | ValueError (msg : string)    (* raise ValueError(...) *)
  | TypeError                    (* arguments that do not fit the parameters *)
  | OSError.                     (* get_terminal_size() without a terminal *)

Inductive outcome (A : Type) : Type :=
  | Ok (a : A)
  | Raise (e : exn).
Arguments Ok {A} a.
Arguments Raise {A} e.

(** A method on an object with state [S]: the outcome of the call and the
    state it leaves behind.  A raise keeps the state reached so far. *)
Definition M (S A : Type) : Type := S -> outcome A * S.

Definition ret {S A} (a : A) : M S A := fun s => (Ok a, s).
Definition raise {S A} (e : exn) : M S A := fun s => (Raise e, s).
Definition bind {S A B} (m : M S A) (k : A -> M S B) : M S B :=
  fun s => match m s with
           | (Ok a, s') => k a s'
           | (Raise e, s') => (Raise e, s')
           end.
Definition gets {S A} (f : S -> A) : M S A := fun s => (Ok (f s), s).
Definition modify {S} (f : S -> S) : M S unit := fun s => (Ok tt, f s).

Declare Scope py_scope.
Delimit Scope py_scope with py.
Notation "'let*' x ':=' m 'in' k" := (bind m (fun x => k))
  (at level 10, x name, m at level 100, k at level 200) : py_scope.
Notation "m ';;' k" := (bind m (fun _ => k))
  (at level 100, k at level 200, right associativity) : py_scope.

(** [for x in xs: body(x)]: stops at the first raise. *)
Fixpoint for_each {S A} (xs : list A) (body : A -> M S unit) : M S unit :=
  match xs with
  | [] => ret tt
  | x :: xs' => (body x ;; for_each xs' body)%py
  end.

(** ** Theme *)

Section Theme.

(** [DEFAULT] comes from [py_style.constants], which is imported with
    [from .constants import *]; its value is left open. *)
Variable DEFAULT : string.

(** The private attributes of a [Theme] instance. *)
Record Theme : Type := mkTheme {
  Theme__info : string;
  Theme__warning : string;
  Theme__error : string;
  Theme__success : string;
  Theme__styles : gmap string string
}.

Definition with_styles (f : gmap string string -> gmap string string)
    (t : Theme) : Theme :=
  mkTheme (Theme__info t) (Theme__warning t) (Theme__error t)
          (Theme__success t) (f (Theme__styles t)).

(** [Theme.__construct]: five item assignments, in the source's order. *)
Definition construct : M Theme unit :=
  (modify (fun t => with_styles <["info" := Theme__info t]> t) ;;
   modify (fun t => with_styles <["warning" := Theme__warning t]> t) ;;
   modify (fun t => with_styles <["success" := Theme__success t]> t) ;;
   modify (fun t => with_styles <["error" := Theme__error t]> t) ;;
   modify (with_styles <["default" := DEFAULT]>))%py.

(** [Theme.__init__]: [styles] is the dict of the extra keyword
    arguments, a fresh object owned by the instance. *)
Definition Theme_init (info warning error success : string)
    (styles : gmap string string) : Theme :=
  snd (construct (mkTheme info warning error success styles)).

(** [Theme.get_style]: [self.__styles[target]]. *)
Definition get_style (target : string) : M Theme string :=
  fun t => match Theme__styles t !! target with
           | Some code => (Ok code, t)
           | None => (Raise (KeyError target), t)
           end.

(** The property getters. *)
Definition info : M Theme string := gets Theme__info.
Definition warning : M Theme string := gets Theme__warning.
Definition error : M Theme string := gets Theme__error.
Definition success : M Theme string := gets Theme__success.

(** The property setters. *)
Definition set_info (color : string) : M Theme unit :=
  (modify (fun t => mkTheme color (Theme__warning t) (Theme__error t)
                            (Theme__success t) (Theme__styles t)) ;;
   construct)%py.

Definition set_warning (color : string) : M Theme unit :=
  (modify (fun t => mkTheme (Theme__info t) color (Theme__error t)
                            (Theme__success t) (Theme__styles t)) ;;
   construct)%py.

Definition set_error (color : string) : M Theme unit :=
  (modify (fun t => mkTheme (Theme__info t) (Theme__warning t) color
                            (Theme__success t) (Theme__styles t)) ;;
   construct)%py.

Definition set_success (color : string) : M Theme unit :=
  modify (fun t => mkTheme (Theme__info t) (Theme__warning t)
                           (Theme__error t) color (Theme__styles t)).

(** The function under [@styles.setter]: [self.__styles.update(objects)]
    where [objects] is the dict of the keyword arguments of the call.
    [dict.update] lets the argument win on a key present in both. *)
Definition set_styles (objects : gmap string string) : M Theme unit :=
  modify (with_styles (fun styles => objects ∪ styles)).

(** A call of that function with [self] and further arguments.  Its
    parameters are [(self, **objects)]: keyword arguments go to [objects],
    and a positional argument after [self] has no parameter to go to, so
    that the call raises [TypeError] before the body runs. *)
Definition call_styles_setter {A : Type} (positional : list A)
    (keywords : gmap string string) : M Theme unit :=
  match positional with
  | [] => set_styles keywords
  | _ :: _ => raise TypeError
  end.

(** [theme.styles = value]: the property calls the function it holds as
    its setter with the instance and the value, both positional. *)
Definition assign_styles (value : gmap string string) : M Theme unit :=
  call_styles_setter [value] ∅.

End Theme.

(** The mutating calls a client can make on a theme. *)
Inductive theme_op : Type :=
  | SetInfo (color : string)
  | SetWarning (color : string)
  | SetError (color : string)
  | SetSuccess (color : string)
  | SetStyles (objects : gmap string string).

Definition exec_theme_op (DEFAULT : string) (op : theme_op) : M Theme unit :=
  match op with
  | SetInfo c => set_info DEFAULT c
  | SetWarning c => set_warning DEFAULT c
  | SetError c => set_error DEFAULT c
  | SetSuccess c => set_success c
  | SetStyles objects => set_styles objects
  end.

(** The theme after a sequence of calls (none of them can raise). *)
Definition run_theme_ops (DEFAULT : string) (ops : list theme_op)
    (t : Theme) : Theme :=
  fold_left (fun t op => snd (exec_theme_op DEFAULT op t)) ops t.

(** *** What [get_style] is expected to answer after a sequence of calls *)

(** How a dict subscript ends, given what the lookup found. *)
Definition subscript_outcome (key : string) (found : option string)
    : outcome string :=
  match found with
  | Some code => Ok code
  | None => Raise (KeyError key)
  end.

(** The value last handed to the [info] setter, [init] if it was never
    called; likewise for [warning] and [error]. *)
Definition last_info (ops : list theme_op) (init : string) : string :=
  fold_left (fun acc op => match op with SetInfo c => c | _ => acc end)
            ops init.
Definition last_warning (ops : list theme_op) (init : string) : string :=
  fold_left (fun acc op => match op with SetWarning c => c | _ => acc end)
            ops init.
Definition last_error (ops : list theme_op) (init : string) : string :=
  fold_left (fun acc op => match op with SetError c => c | _ => acc end)
            ops init.

(** The value last handed to the [success] setter. *)
Definition last_success (ops : list theme_op) (init : string) : string :=
  fold_left (fun acc op => match op with SetSuccess c => c | _ => acc end)
            ops init.

(** The [success] field paired with the value it had when [__construct]
    last ran, that is at the last call of the [info], [warning] or [error]
    setter, or else in [__init__]. *)
Definition success_sync (ops : list theme_op) (init : string)
    : string * string :=
  fold_left
    (fun '(field, synced) op =>
       match op with
       | SetSuccess c => (c, synced)
       | SetInfo _ | SetWarning _ | SetError _ => (field, field)
       | SetStyles _ => (field, synced)
       end)
    ops (init, init).

Definition synced_success (ops : list theme_op) (init : string) : string :=
  snd (success_sync ops init).

(** The value last given for [name] through the bulk mutator, [init] if
    no call mentioned [name]. *)
Definition last_bulk (name : string) (ops : list theme_op)
    (init : option string) : option string :=
  fold_left
    (fun acc op =>
       match op with
       | SetStyles objects =>
           match objects !! name with Some c => Some c | None => acc end
       | _ => acc
       end)
    ops init.

(** The value most recently set for [name] on a theme made by
    [Theme(info, warning, error, success, **styles)] and then put through
    [ops]: by the dedicated setter for [info], [warning] and [error], by
    the bulk mutator for the other names, and for [success] the value of
    the last resynchronization. *)
Definition most_recently_set (info warning error success : string)
    (styles : gmap string string) (ops : list theme_op) (name : string)
    : option string :=
  if decide (name = "info") then Some (last_info ops info)
  else if decide (name = "warning") then Some (last_warning ops warning)
  else if decide (name = "error") then Some (last_error ops error)
  else if decide (name = "success") then Some (synced_success ops success)
  else last_bulk name ops (styles !! name).

(** The same, except that ["default"] is the constant [__construct]
    writes. *)
Definition resolved (DEFAULT info warning error success : string)
    (styles : gmap string string) (ops : list theme_op) (name : string)
    : option string :=
  if decide (name = "default") then Some DEFAULT
  else most_recently_set info warning error success styles ops name.

(** The keys [__construct] assigns. *)
Definition construct_keys : list string :=
  ["info"; "warning"; "success"; "error"; "default"].

(** A call that is not a bulk update of one of those keys. *)
Definition spares_construct_keys (op : theme_op) : bool :=
  match op with
  | SetStyles objects =>
      forallb (fun k => bool_decide (objects !! k = None)) construct_keys
  | _ => true
  end.

(** ** ProgressBar *)

Section ProgressBar.

(** [STOP] is another constant of [py_style.constants]; [delay_t]
    stands for Python's [float], which [run] only hands to [sleep].
    [sleep_check d] is the exception [time.sleep(d)] raises when it
    refuses its argument (a negative length, a NaN), if it does. *)
Variable STOP : string.
Variable delay_t : Type.
Variable sleep_check : delay_t -> option exn.

(** The private attributes other than [__theme]; the theme is an object
    of its own that the bar only refers to. *)
Record ProgressBar : Type := mkProgressBar {
  ProgressBar__values : Z;
  ProgressBar__symbol : string;
  ProgressBar__delay : delay_t
}.

(** What [run] does to the outside: the calls it makes, in order. *)
Inductive event : Type :=
  | Lookup (name : string)   (* self.__theme.get_style(name) *)
  | Print (text : string)    (* text written to stdout and flushed *)
  | Sleep (d : delay_t).     (* sleep(d) *)

(** The state [run] works on: the referenced theme and the call trace. *)
Record env : Type := mkEnv {
  env_theme : Theme;
  env_trace : list event
}.

(** The state with further calls recorded. *)
Definition add_trace (w : env) (es : list event) : env :=
  mkEnv (env_theme w) (env_trace w ++ es).

Definition emit (e : event) : M env unit :=
  modify (fun w => add_trace w [e]).

(** A call of [get_style] on the referenced theme. *)
Definition theme_get_style (name : string) : M env string :=
  (emit (Lookup name) ;;
   fun w => match get_style name (env_theme w) with
            | (r, t) => (r, mkEnv t (env_trace w))
            end)%py.

(** One pass through the body of the [for] loop of [run]:
    [print(get_style(style) + symbol, end=STOP, flush=True)] then
    [sleep(delay)]. *)
Definition sleep (d : delay_t) : M env unit :=
  match sleep_check d with
  | Some e => raise e
  | None => emit (Sleep d)
  end.

Definition run_body (self : ProgressBar) (style : string) : M env unit :=
  (let* code := theme_get_style style in
   emit (Print (code +:+ ProgressBar__symbol self +:+ STOP)) ;;
   sleep (ProgressBar__delay self))%py.

(** [for _ in range(n): body] *)
Fixpoint run_loop (n : nat) (self : ProgressBar) (style : string)
    : M env unit :=
  match n with
  | O => ret tt
  | S n' => (run_body self style ;; run_loop n' self style)%py
  end.

(** [ProgressBar.run]: [range(values)] is empty when [values <= 0];
    [del self] only unbinds the local name. *)
Definition run (self : ProgressBar) (style : string) (del_self : bool)
    : M env unit :=
  (run_loop (Z.to_nat (ProgressBar__values self)) self style ;;
   if del_self then ret tt else ret tt)%py.

End ProgressBar.

Arguments Lookup {delay_t} name.
Arguments Print {delay_t} text.
Arguments Sleep {delay_t} d.
Arguments mkEnv {delay_t} _ _.
Arguments env_theme {delay_t} _.
Arguments env_trace {delay_t} _.
Arguments mkProgressBar {delay_t} _ _ _.
Arguments ProgressBar__values {delay_t} _.
Arguments ProgressBar__symbol {delay_t} _.
Arguments ProgressBar__delay {delay_t} _.
Arguments add_trace {delay_t} w es.
Arguments emit {delay_t} e.
Arguments theme_get_style {delay_t} name.
Arguments sleep {delay_t} sleep_check d.
Arguments run_body STOP {delay_t} sleep_check self style.
Arguments run_loop STOP {delay_t} sleep_check n self style.
Arguments run STOP {delay_t} sleep_check self style del_self.

(** ** Console: the alignment routine *)

(** [s * n] on strings: [n <= 0] gives the empty string. *)
Fixpoint str_repeat (s : string) (n : nat) : string :=
  match n with
  | O => EmptyString
  | S n' => s +:+ str_repeat s n'
  end.

Definition str_mul (s : string) (n : Z) : string := str_repeat s (Z.to_nat n).

(** [len(text)] *)
Definition len (text : string) : Z := Z.of_nat (String.length text).

(** [text.lstrip(" ")] and [text.rstrip(" ")] *)
Fixpoint lstrip (text : string) : string :=
  match text with
  | String " " rest => lstrip rest
  | _ => text
  end.

Fixpoint rstrip (text : string) : string :=
  match text with
  | EmptyString => EmptyString
  | String c rest =>
      match rstrip rest with
      | EmptyString => if Ascii.eqb c " " then EmptyString else String c EmptyString
      | kept => String c kept
      end
  end.

Section Console.

(** The alignment tokens of [py_style.constants]. *)
Variables CENTER LEFT RIGHT : string.

(** [Console.__align_text]; [width] is what
    [get_terminal_size().columns] answered for this call. *)
Definition align_text (width : Z) (text alignment : string)
    : outcome string :=
  if String.eqb alignment CENTER then
    let padding := (width - len text) / 2 in
    Ok (str_mul " " padding +:+ text
        +:+ str_mul " " (width - len text - padding))
  else if String.eqb alignment RIGHT then
    Ok (rstrip (str_mul " " (width - len text) +:+ text))
  else if String.eqb alignment LEFT then
    Ok (lstrip (text +:+ str_mul " " (width - len text)))
  else
    Raise (ValueError
      ("Invalid argument for function 'Console.__align_text': "
       +:+ alignment)).

End Console.

(** ** Table *)

(** [l[i]] on a list of length [n]: the position a Python index denotes,
    counting from the end when it is negative. *)
Definition py_index (n : nat) (i : Z) : option nat :=
  if ((0 <=? i) && (i <? Z.of_nat n))%Z then Some (Z.to_nat i)
  else if ((i <? 0) && (- Z.of_nat n <=? i))%Z
       then Some (Z.to_nat (Z.of_nat n + i))
  else None.

Definition subscript {A} (l : list A) (i : Z) : option A :=
  match py_index (length l) i with
  | Some k => l !! k
  | None => None
  end.

(** The newline character. *)
Definition nl : string := String "010"%char EmptyString.

(** A cell holds any object, [Obj] being the type of the objects other
    than [None]; [None] is the empty marker.  A row is a list of cells. *)
Abbreviation cell Obj := (option Obj) (only parsing).
Abbreviation row Obj := (list (option Obj)) (only parsing).

(** A row is a Python list object: it is held by reference, and
    [get_row] hands that same reference out. *)
Abbreviation ref := nat (only parsing).

Section Table.

(** [str] is the built-in of that name on the objects a cell can hold. *)
Context {Obj : Type}.
Variable str : Obj -> string.

(** The private attributes of a [Table] instance. *)
Record Table : Type := mkTable {
  Table__columns : Z;
  Table__rows : Z;
  Table__table : list ref
}.

(** The list objects allocated so far, and the instance. *)
Record world : Type := mkWorld {
  store : list (row Obj);
  self : Table
}.

(** A new list object, the content of the object behind a reference, and
    its replacement.  The references a table holds are always allocated
    (see [separate_rows] below); elsewhere [!!!] answers the empty list
    and [<[_:=_]>] does nothing. *)
Definition alloc (r : row Obj) : M world ref :=
  fun w => (Ok (length (store w)), mkWorld (store w ++ [r]) (self w)).
Definition deref (l : ref) : M world (row Obj) :=
  gets (fun w => store w !!! l).
Definition assign (l : ref) (r : row Obj) : M world unit :=
  modify (fun w => mkWorld (<[l := r]> (store w)) (self w)).
Definition update_self (f : Table -> Table) : M world unit :=
  modify (fun w => mkWorld (store w) (f (self w))).

(** [Table.__init__] *)
Definition Table_init (columns : Z) : Table := mkTable columns 0 [].

(** [while len(objects) < columns: objects.append(None)].  The loop runs
    at most [columns - len(objects)] times, which is the [fuel] it is
    given; with that much the test is false when the fuel is spent. *)
Fixpoint append_loop (fuel : nat) (columns : Z) (objects : row Obj)
    : row Obj :=
  match fuel with
  | O => objects
  | S fuel' =>
      if (Z.of_nat (length objects) <? columns)%Z
      then append_loop fuel' columns (objects ++ [None])
      else objects
  end.

(** [while len(objects) > columns: objects.pop()].  [pop] raises on the
    empty list.  The loop pops at most [len(objects)] times and then
    tests once more, so [len(objects) + 1] is fuel enough. *)
Fixpoint pop_loop (fuel : nat) (columns : Z) (objects : row Obj)
    : outcome (row Obj) :=
  match fuel with
  | O => Ok objects
  | S fuel' =>
      if (columns <? Z.of_nat (length objects))%Z
      then match objects with
           | [] => Raise IndexError
           | _ => pop_loop fuel' columns (removelast objects)
           end
      else Ok objects
  end.

(** [Table.add_row]: [objects] is the tuple of the arguments;
    [list(objects)] is a new list, local until it is appended. *)
Definition add_row (objects : list (cell Obj)) : M world unit :=
  (let* columns := gets (fun w => Table__columns (self w)) in
   let objects :=
     append_loop (Z.to_nat (columns - Z.of_nat (length objects)))
                 columns objects in
   match pop_loop (S (length objects)) columns objects with
   | Raise e => raise e
   | Ok objects =>
       let* l := alloc objects in
       update_self (fun t => mkTable (Table__columns t) (Table__rows t)
                                     (Table__table t ++ [l])) ;;
       update_self (fun t => mkTable (Table__columns t) (Table__rows t + 1)
                                     (Table__table t))
   end)%py.

(** [Table.del_row] *)
Definition del_row (index : Z) : M world unit :=
  (let* t := gets (fun w => Table__table (self w)) in
   match py_index (length t) index with
   | None => raise IndexError
   | Some k =>
       update_self (fun t => mkTable (Table__columns t) (Table__rows t)
                                     (delete k (Table__table t))) ;;
       update_self (fun t => mkTable (Table__columns t) (Table__rows t - 1)
                                     (Table__table t))
   end)%py.

(** [Table.del_column] *)
Definition del_column (index : Z) : M world unit :=
  (let* t := gets (fun w => Table__table (self w)) in
   for_each t (fun l =>
     let* r := deref l in
     match py_index (length r) index with
     | None => raise IndexError
     | Some k => assign l (delete k r)
     end) ;;
   update_self (fun t => mkTable (Table__columns t - 1) (Table__rows t)
                                 (Table__table t)))%py.

(** [Table.add_column] *)
Definition add_column (placeholder : cell Obj) : M world unit :=
  (let* t := gets (fun w => Table__table (self w)) in
   for_each t (fun l =>
     let* r := deref l in
     assign l (r ++ [placeholder])) ;;
   update_self (fun t => mkTable (Table__columns t + 1) (Table__rows t)
                                 (Table__table t)))%py.

(** [Table.get_column] *)
Definition get_column (row_index column_index : Z) : M world (cell Obj) :=
  (let* t := gets (fun w => Table__table (self w)) in
   match subscript t row_index with
   | None => raise IndexError
   | Some l =>
       let* r := deref l in
       match subscript r column_index with
       | None => raise IndexError
       | Some v => ret v
       end
   end)%py.

(** [Table.set_column] *)
Definition set_column (info : cell Obj) (row_index column_index : Z)
    : M world unit :=
  (let* t := gets (fun w => Table__table (self w)) in
   match subscript t row_index with
   | None => raise IndexError
   | Some l =>
       let* r := deref l in
       match py_index (length r) column_index with
       | None => raise IndexError
       | Some k => assign l (<[k := info]> r)
       end
   end)%py.

(** [Table.get_row]: the row object itself, not a copy. *)
Definition get_row (index : Z) : M world ref :=
  (let* t := gets (fun w => Table__table (self w)) in
   match subscript t index with
   | None => raise IndexError
   | Some l => ret l
   end)%py.

(** [str(cell) if cell is not None else empty], [empty] being the empty
    string. *)
Definition cell_text (c : cell Obj) : string :=
  match c with
  | Some o => str o
  | None => EmptyString
  end.

(** The text one pass of the loop of [get_table] adds for a row. *)
Definition row_text (r : row Obj) : string :=
  "| " +:+ String.concat " | " (map cell_text r) +:+ " |" +:+ nl.

(** [Table.get_table] *)
Definition get_table : M world string :=
  (let* t := gets (fun w => Table__table (self w)) in
   let* rs := gets (fun w => map (fun l => store w !!! l) t) in
   ret (fold_left (fun return_str r => return_str +:+ row_text r) rs EmptyString))%py.

(** The read-only properties. *)
Definition rows : M world Z := gets (fun w => Table__rows (self w)).
Definition columns : M world Z := gets (fun w => Table__columns (self w)).
Definition table : M world (list ref) := gets (fun w => Table__table (self w)).

(** The mutating calls a client can make on a table. *)
Inductive table_op : Type :=
  | AddRow (objects : list (cell Obj))
  | DelRow (index : Z)
  | AddColumn (placeholder : cell Obj)
  | DelColumn (index : Z)
  | SetColumn (info : cell Obj) (row_index column_index : Z).

Definition exec_table_op (op : table_op) : M world unit :=
  match op with
  | AddRow objects => add_row objects
  | DelRow index => del_row index
  | AddColumn placeholder => add_column placeholder
  | DelColumn index => del_column index
  | SetColumn info r c => set_column info r c
  end.

(** The tables a program can hold: a new one, whatever list objects
    exist already, and what any call leaves behind, whether it returned
    or raised. *)
Inductive reachable : world -> Prop :=
  | reachable_new (objs : list (row Obj)) (columns : Z) :
      reachable (mkWorld objs (Table_init columns))
  | reachable_call (w : world) (op : table_op) :
      reachable w -> reachable (snd (exec_table_op op w)).

(** The content of the rows, in order. *)
Definition contents (w : world) : list (row Obj) :=
  map (fun l => store w !!! l) (Table__table (self w)).

(** Every entry of [__table] refers to a list object that exists, and no
    two entries refer to the same one. *)
Definition separate_rows (w : world) : Prop :=
  NoDup (Table__table (self w)) /\
  Forall (fun l => (l < length (store w))%nat) (Table__table (self w)).

(** Every row is [columns] long and [rows] counts the rows. *)
Definition rectangular (w : world) : Prop :=
  Forall (fun r : row Obj => Z.of_nat (length r) = Table__columns (self w))
         (contents w) /\
  Table__rows (self w) = Z.of_nat (length (Table__table (self w))).

(** Both together, entry by entry. *)
Definition table_inv (w : world) : Prop :=
  NoDup (Table__table (self w)) /\
  (forall l, l ∈ Table__table (self w) ->
     (l < length (store w))%nat /\
     Z.of_nat (length (store w !!! l)) = Table__columns (self w)) /\
  Table__rows (self w) = Z.of_nat (length (Table__table (self w))).

(** The cell at row [i] and column [k], counted from 0. *)
Definition cell_at (w : world) (i k : nat) : option (cell Obj) :=
  match contents w !! i with
  | Some r => r !! k
  | None => None
  end.

(** [objects] padded with [None] or cut down to [columns] cells. *)
Definition fit (columns : Z) (objects : row Obj)
    : row Obj :=
  take (Z.to_nat columns)
       (objects
        ++ replicate (Z.to_nat (columns - Z.of_nat (length objects))) None).

(** The shape of the loop bodies of [add_column] and [del_column]: the
    row [r] is replaced by [g r], or [e] is raised when [g r] is
    undefined. *)
Definition row_loop_body (g : row Obj -> option (row Obj)) (e : exn) (l : ref)
    : M world unit :=
  (let* r := deref l in
   match g r with
   | None => raise e
   | Some r' => assign l r'
   end)%py.

(** The store after each of the listed objects was replaced by its image
    under [f], one after the other. *)
Definition update_rows (f : row Obj -> row Obj) (ls : list ref) (st : list (row Obj))
    : list (row Obj) :=
  fold_left (fun st l => <[l := f (st !!! l)]> st) ls st.

End Table.

(** ** Console: writing to the terminal *)


Section ConsoleIO.

(** More constants of [py_style.constants]. *)
Variables CENTER LEFT RIGHT : string.
Variables BOLD UNDERLINE STOP CLEAR : string.

(** What the methods of a [Console] work on: its title, the theme it
    refers to, the width the terminal reports when asked, the chunks
    written to standard output so far, and whether standard output is a
    terminal at all. *)
Record screen : Type := mkScreen {
  Console__title : string;
  Console__theme : Theme;
  terminal_columns : Z;
  stdout : list string;
  terminal_present : bool
}.

(** [print(text, end=end_)] with one positional argument: [sep] has
    nothing to separate. *)
Definition print (text end_ : string) : M screen unit :=
  modify (fun w => mkScreen (Console__title w) (Console__theme w)
                            (terminal_columns w)
                            (stdout w ++ [text +:+ end_])
                            (terminal_present w)).

(** [self.__theme.get_style(style)] *)
Definition console_get_style (style : string) : M screen string :=
  fun w => match get_style style (Console__theme w) with
           | (r, t) =>
               (r, mkScreen (Console__title w) t (terminal_columns w)
                            (stdout w) (terminal_present w))
           end.

(** [get_terminal_size().columns]: the call raises [OSError] when
    standard output is not a terminal. *)
Definition get_terminal_size_columns : M screen Z :=
  fun w => if terminal_present w then (Ok (terminal_columns w), w)
           else (Raise OSError, w).

(** [Console.__align_text] as a console runs it: its first statement asks
    the terminal for its width, the rest is [align_text] at that width. *)
Definition console_align_text (text alignment : string) : M screen string :=
  (let* width := get_terminal_size_columns in
   fun w => (align_text CENTER LEFT RIGHT width text alignment, w))%py.

(** [Console.write]: the style is looked up first, then the text is
    aligned, then it is printed. *)
Definition write (text alignment end_ sep style : string) : M screen unit :=
  (let* code := console_get_style style in
   let* aligned := console_align_text (code +:+ text) alignment in
   print aligned end_)%py.

(** [Console.log]: the same statement as [write]. *)
Definition log (text end_ sep style alignment : string) : M screen unit :=
  (let* code := console_get_style style in
   let* aligned := console_align_text (code +:+ text) alignment in
   print aligned end_)%py.

(** [Console.print_title]; [end], [sep] and [style] take their defaults
    [STOP + newline], one space and ["default"]. *)
Definition print_title : M screen unit :=
  (let* title := gets Console__title in
   write (BOLD +:+ UNDERLINE +:+ title +:+ STOP) CENTER (STOP +:+ nl) " "
         "default")%py.

(** [Console.clear] *)
Definition clear (print_title_too : bool) : M screen unit :=
  (print CLEAR EmptyString ;;
   if print_title_too then print_title else ret tt)%py.

(** [Console.__init__] with standard output as given: the width of the
    terminal, what was written already, and whether there is a terminal. *)
Definition Console_init (title : string) (theme : Theme)
    (print_title_too : bool) (columns : Z) (out : list string)
    (present : bool) : outcome unit * screen :=
  (if print_title_too then print_title else ret tt)
    (mkScreen title theme columns out present).

End ConsoleIO.

(** ** Sample objects *)

(** A small theme; the escape codes are written without their ESC. *)
Definition sample_theme : Theme :=
  Theme_init "[0m" "[36m" "[33m" "[31m" "[32m" {[ "bold" := "[1m" ]}.

Definition default_reset_ops : list theme_op :=
  [SetStyles {[ "default" := "[7m" ]}; SetInfo "[34m"].

Definition sample_ops : list theme_op :=
  [SetStyles {[ "bold" := "[1;4m"; "dim" := "[2m" ]}; SetSuccess "[92m";
   SetInfo "[34m"; SetSuccess "[93m"; SetError "[91m"; SetSuccess "[94m"].

(** [time.sleep] on a whole number of seconds. *)
Definition sample_sleep_check (d : Z) : option exn :=
  if (d <? 0)%Z then Some (ValueError "sleep length must be non-negative")
  else None.

Definition sample_bar (values : Z) : ProgressBar Z :=
  mkProgressBar values "-" 1.

(** [Table(2)] after [add_row("a", "b")], and then after [add_row("x")];
    the cells are strings. *)
Definition table_ab : @world string :=
  snd (add_row [Some "a"; Some "b"] (mkWorld [] (Table_init 2))).
Definition table_abx : @world string := snd (add_row [Some "x"] table_ab).

(** * Properties *)

(** ** Theme *)

Section ThemeFacts.
Variable DEFAULT : string.

Lemma construct_eq (t : Theme) :
  construct DEFAULT t =
    (Ok tt,
     mkTheme (Theme__info t) (Theme__warning t) (Theme__error t)
       (Theme__success t)
       (<["default" := DEFAULT]>
          (<["error" := Theme__error t]>
             (<["success" := Theme__success t]>
                (<["warning" := Theme__warning t]>
                   (<["info" := Theme__info t]> (Theme__styles t))))))).
Proof. reflexivity. Qed.

Lemma fst_get_style name (t : Theme) :
  fst (get_style name t) = subscript_outcome name (Theme__styles t !! name).
Proof. unfold get_style. by destruct (Theme__styles t !! name). Qed.

Lemma snd_get_style name (t : Theme) : snd (get_style name t) = t.
Proof. unfold get_style. by destruct (Theme__styles t !! name). Qed.

(** The entries after [__construct]. *)
Lemma lookup_construct (t : Theme) name :
  Theme__styles (snd (construct DEFAULT t)) !! name =
    if decide (name = "default") then Some DEFAULT
    else if decide (name = "error") then Some (Theme__error t)
    else if decide (name = "success") then Some (Theme__success t)
    else if decide (name = "warning") then Some (Theme__warning t)
    else if decide (name = "info") then Some (Theme__info t)
    else Theme__styles t !! name.
Proof.
  rewrite construct_eq. simpl.
  repeat (rewrite lookup_insert; case_decide; subst; simpl).
  all: repeat case_decide; congruence.
Qed.

Variables (i w e s : string) (st : gmap string string).

Lemma last_info_snoc ops op :
  last_info (ops ++ [op]) i =
    match op with SetInfo c => c | _ => last_info ops i end.
Proof. unfold last_info. by rewrite fold_left_app. Qed.
Lemma last_warning_snoc ops op :
  last_warning (ops ++ [op]) w =
    match op with SetWarning c => c | _ => last_warning ops w end.
Proof. unfold last_warning. by rewrite fold_left_app. Qed.
Lemma last_error_snoc ops op :
  last_error (ops ++ [op]) e =
    match op with SetError c => c | _ => last_error ops e end.
Proof. unfold last_error. by rewrite fold_left_app. Qed.
Lemma last_success_snoc ops op :
  last_success (ops ++ [op]) s =
    match op with SetSuccess c => c | _ => last_success ops s end.
Proof. unfold last_success. by rewrite fold_left_app. Qed.
Lemma last_bulk_snoc name ops op init :
  last_bulk name (ops ++ [op]) init =
    match op with
    | SetStyles objects =>
        match objects !! name with
        | Some c => Some c
        | None => last_bulk name ops init
        end
    | _ => last_bulk name ops init
    end.
Proof. unfold last_bulk. by rewrite fold_left_app. Qed.
Lemma success_sync_snoc ops op :
  success_sync (ops ++ [op]) s =
    match op with
    | SetSuccess c => (c, snd (success_sync ops s))
    | SetStyles _ => success_sync ops s
    | _ => (fst (success_sync ops s), fst (success_sync ops s))
    end.
Proof.
  unfold success_sync. rewrite fold_left_app. simpl.
  by destruct (fold_left _ ops (s, s)), op.
Qed.
Lemma success_sync_field ops :
  fst (success_sync ops s) = last_success ops s.
Proof.
  induction ops as [|op ops IH] using rev_ind; [done|].
  rewrite success_sync_snoc, last_success_snoc.
  destruct op; simpl; try done.
Qed.

Lemma run_theme_ops_snoc ops op t :
  run_theme_ops DEFAULT (ops ++ [op]) t =
    snd (exec_theme_op DEFAULT op (run_theme_ops DEFAULT ops t)).
Proof. unfold run_theme_ops. by rewrite fold_left_app. Qed.

Lemma spares_lookup objects name :
  spares_construct_keys (SetStyles objects) = true ->
  name ∈ construct_keys -> objects !! name = None.
Proof.
  unfold spares_construct_keys. rewrite forallb_forall.
  intros H Hin. apply list_elem_of_In, H in Hin.
  by apply bool_decide_eq_true_1 in Hin.
Qed.

Lemma resolved_no_key name ops :
  name ∉ construct_keys ->
  resolved DEFAULT i w e s st ops name = last_bulk name ops (st !! name).
Proof.
  intros Hn. unfold resolved, most_recently_set, construct_keys in *.
  repeat case_decide; subst; try done; exfalso; apply Hn; set_solver.
Qed.

Lemma run_theme_ops_tracks ops :
  forallb spares_construct_keys ops = true ->
  let t := run_theme_ops DEFAULT ops (Theme_init DEFAULT i w e s st) in
  Theme__info t = last_info ops i /\
  Theme__warning t = last_warning ops w /\
  Theme__error t = last_error ops e /\
  Theme__success t = last_success ops s /\
  forall name,
    Theme__styles t !! name = resolved DEFAULT i w e s st ops name.
Proof.
  induction ops as [|op ops IH] using rev_ind; intros Hs t.
  - subst t. change (run_theme_ops DEFAULT [] ?t) with t.
    unfold Theme_init. split_and!; try done.
    intros name. rewrite lookup_construct. simpl.
    unfold resolved, most_recently_set. simpl.
    repeat case_decide; subst; done.
  - rewrite forallb_app in Hs. apply andb_prop in Hs as [Hs Hop].
    simpl in Hop. rewrite andb_true_r in Hop.
    destruct (IH Hs) as (Hi & Hw & He & Hsu & Hst). clear IH.
    subst t. rewrite run_theme_ops_snoc.
    set (t := run_theme_ops DEFAULT ops _) in *.
    rewrite last_info_snoc, last_warning_snoc, last_error_snoc,
      last_success_snoc.
    destruct op as [c|c|c|c|objects]; simpl.
    all: split_and!; try done.
    all: intros name.
    all: specialize (Hst name); unfold resolved, most_recently_set in *.
    all: rewrite ?last_info_snoc, ?last_warning_snoc, ?last_error_snoc,
           ?last_bulk_snoc.
    all: unfold synced_success in *; rewrite success_sync_snoc; simpl.
    all: rewrite ?success_sync_field.
    1-3: rewrite !lookup_insert.
    1-4: repeat case_decide; subst; simplify_eq; congruence.
    rewrite lookup_union.
    destruct (decide (name ∈ construct_keys)) as [Hin|Hout].
    + rewrite (spares_lookup objects name Hop Hin), (left_id None _).
      rewrite Hst. unfold construct_keys in Hin.
      rewrite !elem_of_cons, elem_of_nil in Hin.
      destruct Hin as [->|[->|[->|[->|[->|[]]]]]]; reflexivity.
    + assert (name <> "default" /\ name <> "info" /\ name <> "warning"
              /\ name <> "error" /\ name <> "success") as (?&?&?&?&?).
      { unfold construct_keys in Hout.
        rewrite !elem_of_cons, elem_of_nil in Hout. tauto. }
      rewrite !decide_False in * by assumption.
      rewrite <- Hst.
      by destruct (objects !! name), (Theme__styles t !! name).
Qed.
End ThemeFacts.

(** C8: for a name [s] that is not a key of the theme's style mapping,
    [get_style(s)] raises [KeyError(s)] and leaves the theme as it was. *)
Theorem get_style_unregistered (t : Theme) (s : string) :
  Theme__styles t !! s = None ->
  get_style s t = (Raise (KeyError s), t).
Proof. intros H. unfold get_style. by rewrite H. Qed.

Lemma get_style_unregistered_witness :
  Theme__styles sample_theme !! "blink" = None /\
  get_style "blink" sample_theme = (Raise (KeyError "blink"), sample_theme).
Proof.
  split; [reflexivity | apply get_style_unregistered; reflexivity].
Defined.

(** The function under [@styles.setter], called with the pairs [objects]
    as keyword arguments, returns normally and leaves the mapping merged
    with [objects], the new pair winning on a key both have; [get_style]
    then answers the new code for every merged name and what it answered
    before for every other. *)
Lemma set_styles_merges (t : Theme) (objects : gmap string string) :
  fst (set_styles objects t) = Ok tt /\
  Theme__styles (snd (set_styles objects t)) = objects ∪ Theme__styles t /\
  forall name,
    fst (get_style name (snd (set_styles objects t))) =
      match objects !! name with
      | Some code => Ok code
      | None => fst (get_style name t)
      end.
Proof.
  split_and!; try done.
  intros name. rewrite !fst_get_style. simpl. rewrite lookup_union.
  by destruct (objects !! name), (Theme__styles t !! name).
Qed.

(** C3: the code does not do what the claim says.  The assignment
    [theme.styles = value], which is how a property setter is used, hands
    [value] to the function as a positional argument; its parameters
    [(self, **objects)] refuse it, so the assignment raises [TypeError]
    and the theme is as it was: no pair is merged and [get_style] answers
    what it answered before, for the names of [value] too. *)
Theorem styles_assignment_raises (t : Theme) (value : gmap string string) :
  assign_styles value t = (Raise TypeError, t) /\
  (forall name,
     fst (get_style name (snd (assign_styles value t))) =
       fst (get_style name t)) /\
  fst (get_style "bold"
         (snd (assign_styles {[ "bold" := "[1;4m" ]} sample_theme))) =
    Ok "[1m".
Proof. by split_and!. Qed.

(** C1, as amended: on a theme made by the constructor and put through
    any calls of the setters in which the bulk mutator is never given one
    of the five keys [__construct] assigns, [get_style(name)] answers, for
    [info], [warning] and [error], the value last handed to the dedicated
    setter; for [default], the constant [DEFAULT]; for [success], the value
    the field had when [__construct] last ran; for any other name, the
    value last given through the bulk mutator (or to the constructor), and
    raises [KeyError] if there is none.  A call of the [success] setter
    changes the field and not what [get_style("success")] answers. *)
Theorem get_style_after_calls DEFAULT i w e s st ops :
  forallb spares_construct_keys ops = true ->
  let t := run_theme_ops DEFAULT ops (Theme_init DEFAULT i w e s st) in
  (forall name,
     fst (get_style name t) =
       subscript_outcome name (resolved DEFAULT i w e s st ops name)) /\
  (forall c,
     Theme__success (snd (set_success c t)) = c /\
     fst (get_style "success" (snd (set_success c t))) =
       Ok (synced_success ops s)).
Proof.
  intros Hs t.
  destruct (run_theme_ops_tracks DEFAULT i w e s st ops Hs)
    as (_ & _ & _ & _ & Hst). fold t in Hst.
  split.
  - intros name. by rewrite fst_get_style, Hst.
  - intros c. split; [done|]. rewrite fst_get_style. simpl.
    by rewrite Hst.
Qed.

Lemma get_style_after_calls_witness :
  forallb spares_construct_keys sample_ops = true /\
  let t := run_theme_ops "[0m" sample_ops sample_theme in
  fst (get_style "bold" t) = Ok "[1;4m" /\
  fst (get_style "info" t) = Ok "[34m" /\
  fst (get_style "success" t) = Ok "[93m" /\
  Theme__success t = "[94m" /\
  fst (get_style "default" t) = Ok "[0m".
Proof.
  split; [reflexivity|].
  destruct (get_style_after_calls "[0m" "[36m" "[33m" "[31m" "[32m"
              {[ "bold" := "[1m" ]} sample_ops eq_refl) as [H _].
  simpl. split_and!; [rewrite H .. | | rewrite H]; reflexivity.
Defined.

(** C1, as stated, fails: ["default"] is a registered name that is not
    one of [info], [warning], [error]; after the bulk mutator sets it and
    the [info] setter runs, [get_style("default")] answers [DEFAULT], not
    the value most recently set for it. *)
Lemma get_style_default_reset :
  let t := run_theme_ops "[0m" default_reset_ops sample_theme in
  most_recently_set "[36m" "[33m" "[31m" "[32m" {[ "bold" := "[1m" ]}
    default_reset_ops "default" = Some "[7m" /\
  fst (get_style "default" t) = Ok "[0m" /\
  fst (get_style "default" t) <>
    subscript_outcome "default"
      (most_recently_set "[36m" "[33m" "[31m" "[32m" {[ "bold" := "[1m" ]}
         default_reset_ops "default").
Proof. vm_compute. split_and!; [reflexivity | reflexivity | discriminate]. Qed.

(** ** ProgressBar *)

Section ProgressBarFacts.
Variable STOP : string.
Context {delay_t : Type}.
Variable sleep_check : delay_t -> option exn.
Variable self : ProgressBar delay_t.
Variable style : string.

Lemma add_trace_app (w : env delay_t) es es' :
  add_trace (add_trace w es) es' = add_trace w (es ++ es').
Proof. unfold add_trace. simpl. by rewrite <- app_assoc. Qed.

Lemma add_trace_nil (w : env delay_t) : add_trace w [] = w.
Proof. destruct w. unfold add_trace. simpl. by rewrite app_nil_r. Qed.

(** One step of the loop: the lookup comes first and can raise. *)
Lemma run_body_eq w :
  run_body STOP sleep_check self style w =
    match Theme__styles (env_theme w) !! style with
    | None => (Raise (KeyError style), add_trace w [Lookup style])
    | Some code =>
        let printed := Print (code +:+ ProgressBar__symbol self +:+ STOP) in
        match sleep_check (ProgressBar__delay self) with
        | Some e => (Raise e, add_trace w [Lookup style; printed])
        | None =>
            (Ok tt,
             add_trace w
               [Lookup style; printed; Sleep (ProgressBar__delay self)])
        end
    end.
Proof.
  unfold run_body, theme_get_style, sleep, bind, emit, modify, get_style,
    raise, add_trace. simpl.
  destruct (Theme__styles (env_theme w) !! style); simpl; [|done].
  destruct (sleep_check _); simpl; by rewrite <- ?app_assoc.
Qed.

Lemma run_loop_registered n w code :
  Theme__styles (env_theme w) !! style = Some code ->
  sleep_check (ProgressBar__delay self) = None ->
  run_loop STOP sleep_check n self style w =
    (Ok tt,
     add_trace w
       (concat (replicate n
          [Lookup style;
           Print (code +:+ ProgressBar__symbol self +:+ STOP);
           Sleep (ProgressBar__delay self)]))).
Proof.
  intros Hc Hd. revert w Hc. induction n as [|n IH]; intros w Hc.
  - simpl. by rewrite add_trace_nil.
  - cbn [run_loop replicate concat]. unfold bind at 1.
    rewrite run_body_eq, Hc. cbn zeta. rewrite Hd.
    rewrite IH by done. by rewrite add_trace_app.
Qed.

Lemma run_eq del_self w :
  run STOP sleep_check self style del_self w =
    run_loop STOP sleep_check (Z.to_nat (ProgressBar__values self))
      self style w.
Proof.
  unfold run, bind. destruct (run_loop _ _ _ _ _ _) as [[[]|e] w'].
  - by destruct del_self.
  - done.
Qed.

End ProgressBarFacts.

(** C2, as amended: [run] looks the style up inside the loop, at every
    step, and not before it.  With [values <= 0] it returns at once, with
    no call made, whether the style is registered or not.  With
    [values >= 1] and an unregistered style it raises [KeyError(style)] at
    the first step, before anything is written.  With a registered style
    it looks the style up, writes the styled symbol and sleeps, [values]
    times over (stopping at the first [sleep] that raises). *)
Theorem run_resolves_in_loop (STOP : string) {delay_t : Type}
    (sleep_check : delay_t -> option exn) (self : ProgressBar delay_t)
    (style : string) (del_self : bool) (w : env delay_t) :
  run STOP sleep_check self style del_self w =
    if (ProgressBar__values self <=? 0)%Z then (Ok tt, w)
    else
      match Theme__styles (env_theme w) !! style with
      | None => (Raise (KeyError style), add_trace w [Lookup style])
      | Some code =>
          let printed :=
            Print (code +:+ ProgressBar__symbol self +:+ STOP) in
          match sleep_check (ProgressBar__delay self) with
          | Some e => (Raise e, add_trace w [Lookup style; printed])
          | None =>
              (Ok tt,
               add_trace w
                 (concat
                    (replicate (Z.to_nat (ProgressBar__values self))
                       [Lookup style; printed;
                        Sleep (ProgressBar__delay self)])))
          end
      end.
Proof.
  rewrite run_eq. destruct (Z.leb_spec (ProgressBar__values self) 0) as [H|H].
  - by replace (Z.to_nat _) with 0%nat by lia.
  - destruct (Theme__styles (env_theme w) !! style) as [code|] eqn:Hc.
    + cbn zeta.
      destruct (sleep_check (ProgressBar__delay self)) as [e|] eqn:Hd.
      * destruct (Z.to_nat _) as [|n] eqn:Hn; [lia|].
        cbn [run_loop]. unfold bind. by rewrite run_body_eq, Hc, Hd.
      * by apply run_loop_registered.
    + destruct (Z.to_nat _) as [|n] eqn:Hn; [lia|].
      cbn [run_loop]. unfold bind. by rewrite run_body_eq, Hc.
Qed.

(** C2, as stated, fails: with [values = 0] and a style the theme does not
    have, [run] returns normally; and with [values = 2] the style is
    looked up twice, once at each step. *)
Lemma run_zero_steps_unregistered :
  Theme__styles sample_theme !! "blink" = None /\
  run "[0m" sample_sleep_check (sample_bar 0) "blink" false
      (mkEnv sample_theme []) = (Ok tt, mkEnv sample_theme []) /\
  fst (run "[0m" sample_sleep_check (sample_bar 0) "blink" false
         (mkEnv sample_theme [])) <> Raise (KeyError "blink") /\
  env_trace (snd (run "[0m" sample_sleep_check (sample_bar 2) "bold" false
                      (mkEnv sample_theme []))) =
    [Lookup "bold"; Print "[1m-[0m"; Sleep 1;
     Lookup "bold"; Print "[1m-[0m"; Sleep 1].
Proof. vm_compute. by split_and!. Qed.

(** ** Console *)

(** Facts on strings the alignment needs. *)
Section StringFacts.
Lemma append_cons (x : ascii) (a b : string) :
  String x a +:+ b = String x (a +:+ b).
Proof. reflexivity. Qed.

Lemma length_append (a b : string) :
  String.length (a +:+ b) = (String.length a + String.length b)%nat.
Proof. induction a as [|c a IH]; simpl; [done|]. by rewrite IH. Qed.

Lemma length_str_repeat (s : string) (n : nat) :
  String.length (str_repeat s n) = (n * String.length s)%nat.
Proof.
  induction n as [|n IH]; simpl; [done|]. by rewrite length_append, IH.
Qed.

Lemma substring_whole (a b : string) :
  substring 0 (String.length a) (a +:+ b) = a.
Proof. induction a as [|c a IH]; simpl; [by destruct b|]. by rewrite IH. Qed.

Lemma substring_skip (a b : string) (m : nat) :
  substring (String.length a) m (a +:+ b) = substring 0 m b.
Proof. induction a as [|c a IH]; simpl; done. Qed.

Lemma substring_middle (a b c : string) :
  substring (String.length a) (String.length b) (a +:+ b +:+ c) = b.
Proof. by rewrite substring_skip, substring_whole. Qed.

Lemma append_assoc (a b c : string) : a +:+ b +:+ c = (a +:+ b) +:+ c.
Proof.
  induction a as [|x a IH]; [done|]. by rewrite !append_cons, IH.
Qed.

Lemma substring_all (a : string) : substring 0 (String.length a) a = a.
Proof. induction a as [|x a IH]; simpl; [done|]. by rewrite IH. Qed.
End StringFacts.

(** C7: for a terminal [W] columns wide and a text of length [L < W],
    center alignment returns a string of length exactly [W]: [(W-L)//2]
    spaces, then the text unchanged at offset [(W-L)//2], then
    [W - L - (W-L)//2] spaces. *)
Theorem center_alignment (CENTER LEFT RIGHT : string) (W : Z) (text : string) :
  len text < W ->
  let padding := (W - len text) / 2 in
  let aligned :=
    str_mul " " padding +:+ text +:+ str_mul " " (W - len text - padding) in
  align_text CENTER LEFT RIGHT W text CENTER = Ok aligned /\
  len aligned = W /\
  0 <= padding /\
  substring 0 (Z.to_nat padding) aligned = str_mul " " padding /\
  substring (Z.to_nat padding) (String.length text) aligned = text /\
  substring (Z.to_nat padding + String.length text)
            (Z.to_nat (W - len text - padding)) aligned =
    str_mul " " (W - len text - padding).
Proof.
  intros HL padding aligned.
  assert (0 <= padding) as Hp by (apply Z.div_pos; lia).
  assert (padding <= W - len text) as Hq.
  { subst padding. apply Z.div_le_upper_bound; lia. }
  assert (String.length (str_mul " " padding) = Z.to_nat padding) as Hlp.
  { unfold str_mul. rewrite length_str_repeat. simpl. lia. }
  split_and!.
  - unfold align_text. by rewrite String.eqb_refl.
  - subst aligned. unfold len in *.
    rewrite !length_append, Hlp. unfold str_mul.
    rewrite length_str_repeat. simpl. lia.
  - done.
  - subst aligned. rewrite <- Hlp. apply substring_whole.
  - subst aligned. rewrite <- Hlp. apply substring_middle.
  - subst aligned. rewrite <- Hlp, <- length_append.
    rewrite append_assoc, substring_skip.
    set (r := str_mul " " (W - len text - padding)).
    replace (Z.to_nat (W - len text - padding)) with (String.length r).
    + apply substring_all.
    + subst r. unfold str_mul. rewrite length_str_repeat. simpl. lia.
Qed.

Lemma center_alignment_witness :
  len "abc" < 10 /\
  align_text "center" "left" "right" 10 "abc" "center" = Ok "   abc    ".
Proof.
  split; [reflexivity|].
  apply (center_alignment "center" "left" "right" 10 "abc"). reflexivity.
Defined.

(** ** Table *)

(** Boolean tests on integers, turned into what [lia] reads. *)
Ltac zbool :=
  repeat match goal with
  | H : (_ && _) = true |- _ => apply andb_prop in H as [? ?]
  | H : (_ && _) = false |- _ => apply andb_false_iff in H as [?|?]
  | H : (_ <=? _)%Z = true |- _ => apply Z.leb_le in H
  | H : (_ <=? _)%Z = false |- _ => apply Z.leb_gt in H
  | H : (_ <? _)%Z = true |- _ => apply Z.ltb_lt in H
  | H : (_ <? _)%Z = false |- _ => apply Z.ltb_ge in H
  end.

(** Indices, the two loops of [add_row], and [add_row] itself. *)
Section TableRowFacts.
Context {Obj : Type}.
Implicit Types (w : @world Obj) (r objects : row Obj) (st : list (row Obj)).
Implicit Types (ls : list ref) (l : ref).

Lemma py_index_Some n i k : py_index n i = Some k -> (k < n)%nat.
Proof.
  unfold py_index. repeat case_match; intros; simplify_eq; zbool; lia.
Qed.

Lemma py_index_nil i : py_index 0 i = None.
Proof. unfold py_index. repeat case_match; try done; zbool; lia. Qed.

Lemma py_index_last n : (0 < n)%nat -> py_index n (-1) = Some (n - 1)%nat.
Proof.
  intros Hn. unfold py_index.
  repeat case_match; zbool; try lia; f_equal; lia.
Qed.

Lemma py_index_nonneg n i :
  0 <= i < Z.of_nat n -> py_index n i = Some (Z.to_nat i).
Proof.
  intros Hi. unfold py_index. repeat case_match; try done; zbool; lia.
Qed.

Lemma append_loop_eq fuel columns objects :
  (Z.to_nat (columns - Z.of_nat (length objects)) <= fuel)%nat ->
  append_loop fuel columns objects =
    objects
    ++ replicate (Z.to_nat (columns - Z.of_nat (length objects))) None.
Proof.
  revert objects. induction fuel as [|fuel IH]; intros objects Hf; simpl.
  - replace (Z.to_nat _) with 0%nat by lia. simpl. by rewrite app_nil_r.
  - destruct (Z.ltb_spec (Z.of_nat (length objects)) columns) as [H|H].
    + rewrite IH by (rewrite length_app; simpl; lia).
      rewrite length_app. simpl. rewrite <- app_assoc. f_equal.
      replace (Z.to_nat (columns - Z.of_nat (length objects)))
        with (S (Z.to_nat (columns - Z.of_nat (length objects + 1)%nat)))
        by lia.
      done.
    + replace (Z.to_nat _) with 0%nat by lia. simpl. by rewrite app_nil_r.
Qed.

(** The loop has ended when it returns: its test is false. *)
Lemma append_loop_exit columns objects :
  let n := Z.to_nat (columns - Z.of_nat (length objects)) in
  ~ (Z.of_nat (length (append_loop n columns objects)) < columns).
Proof.
  intros n. subst n. rewrite append_loop_eq by done.
  rewrite length_app, length_replicate. lia.
Qed.

Lemma pop_loop_eq fuel columns objects :
  (length objects < fuel)%nat ->
  pop_loop fuel columns objects =
    if (columns <? 0)%Z then Raise IndexError
    else Ok (take (Z.to_nat columns) objects).
Proof.
  revert objects. induction fuel as [|fuel IH]; intros objects Hf; [lia|].
  simpl. destruct (Z.ltb_spec columns (Z.of_nat (length objects))) as [H|H].
  - destruct objects as [|x objects'] eqn:E.
    + simpl in H. by rewrite (proj2 (Z.ltb_lt _ _)) by lia.
    + rewrite <- E in *. assert (length objects <> 0)%nat by by subst.
      rewrite removelast_firstn_len.
      rewrite IH by (rewrite length_firstn; lia).
      case_match; [done|]. zbool. f_equal.
      rewrite take_take. f_equal. lia.
  - rewrite (proj2 (Z.ltb_ge _ _)) by lia. f_equal.
    by rewrite take_ge by lia.
Qed.

Lemma length_fit columns objects :
  0 <= columns -> length (fit columns objects) = Z.to_nat columns.
Proof.
  intros H. unfold fit. rewrite length_take, length_app, length_replicate. lia.
Qed.

Lemma fit_pad columns objects :
  Z.of_nat (length objects) <= columns ->
  fit columns objects =
    objects
    ++ replicate (Z.to_nat (columns - Z.of_nat (length objects))) None.
Proof.
  intros H. unfold fit. apply take_ge.
  rewrite length_app, length_replicate. lia.
Qed.

Lemma fit_cut columns objects :
  columns <= Z.of_nat (length objects) ->
  fit columns objects = take (Z.to_nat columns) objects.
Proof.
  intros H. unfold fit. replace (Z.to_nat (_ - _)) with 0%nat by lia.
  simpl. by rewrite app_nil_r.
Qed.

Lemma add_row_eq objects w :
  add_row objects w =
    if (Table__columns (self w) <? 0)%Z then (Raise IndexError, w)
    else
      (Ok tt,
       mkWorld (store w ++ [fit (Table__columns (self w)) objects])
         (mkTable (Table__columns (self w)) (Table__rows (self w) + 1)
            (Table__table (self w) ++ [length (store w)]))).
Proof.
  unfold add_row, bind, gets. cbn beta iota zeta.
  rewrite append_loop_eq by done. rewrite pop_loop_eq by lia.
  by destruct (Table__columns (self w) <? 0)%Z.
Qed.
End TableRowFacts.

(** Loops over the rows. *)
Section TableStoreFacts.
Context {Obj : Type}.
Implicit Types (w : @world Obj) (r objects : row Obj) (st : list (row Obj)).
Implicit Types (ls : list ref) (l : ref) (f : row Obj -> row Obj).

Lemma length_update_rows f ls st : length (update_rows f ls st) = length st.
Proof.
  revert st. induction ls as [|l ls IH]; intros st; simpl; [done|].
  by rewrite IH, length_insert.
Qed.

Lemma update_rows_other f ls st l :
  l ∉ ls -> update_rows f ls st !!! l = st !!! l.
Proof.
  revert st. induction ls as [|l' ls IH]; intros st Hl; simpl; [done|].
  apply not_elem_of_cons in Hl as [Hne Hl].
  rewrite IH by done. by rewrite list_lookup_total_insert_ne.
Qed.

Lemma update_rows_at f ls st l :
  NoDup ls -> l ∈ ls -> (l < length st)%nat ->
  update_rows f ls st !!! l = f (st !!! l).
Proof.
  revert st. induction ls as [|l' ls IH]; intros st Hnd Hl Hlt; simpl.
  - by apply elem_of_nil in Hl.
  - apply NoDup_cons in Hnd as [Hnotin Hnd].
    apply elem_of_cons in Hl as [->|Hl].
    + rewrite update_rows_other by done.
      by rewrite list_lookup_total_insert_eq.
    + rewrite IH by (rewrite ?length_insert; done).
      rewrite list_lookup_total_insert_ne; [done|]. by intros ->.
Qed.

Lemma for_each_rows g e f ls st t :
  NoDup ls ->
  (forall l, l ∈ ls -> g (st !!! l) = Some (f (st !!! l))) ->
  for_each ls (row_loop_body g e) (mkWorld st t) =
    (Ok tt, mkWorld (update_rows f ls st) t).
Proof.
  revert st. induction ls as [|l ls IH]; intros st Hnd Hg; [done|].
  apply NoDup_cons in Hnd as [Hnotin Hnd].
  cbn [for_each update_rows fold_left]. unfold bind at 1.
  unfold row_loop_body at 1, bind, deref, gets, assign, modify. simpl.
  rewrite (Hg l) by set_solver. apply IH; [done|].
  intros l' Hl'. rewrite list_lookup_total_insert_ne by (by intros ->).
  apply Hg. set_solver.
Qed.

Lemma for_each_rows_raise g e ls l st t :
  g (st !!! l) = None ->
  for_each (l :: ls) (row_loop_body g e) (mkWorld st t) =
    (Raise e, mkWorld st t).
Proof.
  intros Hg. cbn [for_each]. unfold bind at 1.
  unfold row_loop_body at 1, bind, deref, gets, raise. simpl.
  by rewrite Hg.
Qed.
End TableStoreFacts.

(** What [add_column] and [del_column] do to a table with separate
    rows. *)
Section TableMethodFacts.
Context {Obj : Type}.
Implicit Types (w : @world Obj) (r objects : row Obj) (st : list (row Obj)).
Implicit Types (ls : list ref) (l : ref) (f : row Obj -> row Obj).

Lemma for_each_ext {S A} (xs : list A) (body body' : A -> M S unit) s :
  (forall x s, body x s = body' x s) ->
  for_each xs body s = for_each xs body' s.
Proof.
  intros H. revert s. induction xs as [|x xs IH]; intros s; [done|].
  simpl. unfold bind. rewrite H. destruct (body' x s) as [[[]|e] s']; [|done].
  apply IH.
Qed.

Lemma world_eta w : mkWorld (store w) (self w) = w.
Proof. by destruct w. Qed.

Lemma add_column_eq placeholder w :
  NoDup (Table__table (self w)) ->
  add_column placeholder w =
    (Ok tt,
     mkWorld
       (update_rows (fun r => r ++ [placeholder]) (Table__table (self w))
          (store w))
       (mkTable (Table__columns (self w) + 1) (Table__rows (self w))
          (Table__table (self w)))).
Proof.
  destruct w as [st t]. cbn [self store].
  intros Hnd. unfold add_column, bind at 1, gets. cbn beta iota.
  unfold bind at 1. cbn [self store].
  rewrite (for_each_ext _ _
             (row_loop_body (fun r => Some (r ++ [placeholder])) IndexError))
    by done.
  by rewrite (for_each_rows _ _ (fun r => r ++ [placeholder])).
Qed.

Lemma del_column_eq index n w :
  NoDup (Table__table (self w)) ->
  Forall (fun r => length r = n) (contents w) ->
  del_column index w =
    match Table__table (self w), py_index n index with
    | _ :: _, None => (Raise IndexError, w)
    | [], _ =>
        (Ok tt,
         mkWorld (store w)
           (mkTable (Table__columns (self w) - 1) (Table__rows (self w)) []))
    | _, Some k =>
        (Ok tt,
         mkWorld (update_rows (delete k) (Table__table (self w)) (store w))
           (mkTable (Table__columns (self w) - 1) (Table__rows (self w))
              (Table__table (self w))))
    end.
Proof.
  destruct w as [st t]. unfold contents. cbn [self store].
  intros Hnd Hn. unfold del_column, bind at 1, gets. cbn beta iota.
  unfold bind at 1. cbn [self store].
  rewrite (for_each_ext _ _
             (row_loop_body
                (fun r => match py_index (length r) index with
                          | Some k => Some (delete k r)
                          | None => None
                          end) IndexError)).
  2:{ intros l s. unfold row_loop_body, bind, deref, gets. simpl.
      by destruct (py_index _ _). }
  rewrite Forall_fmap in Hn.
  destruct (Table__table t) as [|l ls] eqn:Et.
  { simpl. unfold update_self, modify. simpl. by rewrite Et. }
  destruct (py_index n index) as [k|] eqn:Ek.
  - rewrite (for_each_rows _ _ (delete k)); [|done|].
    + unfold update_self, modify. simpl. by rewrite Et.
    + intros l' Hl'. rewrite Forall_forall in Hn. simpl in Hn.
      by rewrite (Hn l' Hl'), Ek.
  - rewrite for_each_rows_raise; [done|].
    apply Forall_cons in Hn as [Hl _]. simpl in Hl. by rewrite Hl, Ek.
Qed.
End TableMethodFacts.

(** The methods keep the rows separate and the table rectangular. *)
Section TableInvariant.
Context {Obj : Type}.
Implicit Types (w : @world Obj) (r objects : row Obj) (st : list (row Obj)).
Implicit Types (ls : list ref) (l : ref) (f : row Obj -> row Obj).

Lemma del_row_eq index w :
  del_row index w =
    match py_index (length (Table__table (self w))) index with
    | None => (Raise IndexError, w)
    | Some k =>
        (Ok tt,
         mkWorld (store w)
           (mkTable (Table__columns (self w)) (Table__rows (self w) - 1)
              (delete k (Table__table (self w)))))
    end.
Proof.
  unfold del_row, bind, gets. cbn beta iota.
  by destruct (py_index _ _).
Qed.

Lemma set_column_eq info row_index column_index w :
  set_column info row_index column_index w =
    match subscript (Table__table (self w)) row_index with
    | None => (Raise IndexError, w)
    | Some l =>
        match py_index (length (store w !!! l)) column_index with
        | None => (Raise IndexError, w)
        | Some k =>
            (Ok tt,
             mkWorld (<[l := <[k := info]> (store w !!! l)]> (store w))
               (self w))
        end
    end.
Proof.
  unfold set_column, bind, gets. cbn beta iota.
  destruct (subscript _ _) as [l|]; [|done].
  unfold deref, gets. by destruct (py_index _ _).
Qed.

Lemma subscript_Some {A} (xs : list A) i x :
  subscript xs i = Some x ->
  exists k, py_index (length xs) i = Some k /\ xs !! k = Some x.
Proof.
  unfold subscript. destruct (py_index _ _) as [k|]; [|done]. eauto.
Qed.

Lemma table_inv_iff w : table_inv w <-> separate_rows w /\ rectangular w.
Proof.
  unfold table_inv, separate_rows, rectangular, contents.
  rewrite Forall_fmap, !Forall_forall. simpl. split.
  - intros (Hnd & Hrows & Hcount). split_and!; try done.
    + intros l Hl. by apply Hrows.
    + intros l Hl. by apply Hrows.
  - intros [[Hnd Hlt] [Hlen Hcount]]. split_and!; try done.
    intros l Hl. split; [by apply Hlt | by apply Hlen].
Qed.

Lemma table_inv_new (objs : list (row Obj)) columns :
  table_inv (mkWorld objs (Table_init columns)).
Proof.
  split_and!; simpl; [apply NoDup_nil_2 | | done].
  intros l Hl. by apply elem_of_nil in Hl.
Qed.

Lemma table_inv_add_row objects w :
  table_inv w -> table_inv (snd (add_row objects w)).
Proof.
  intros (Hnd & Hrows & Hcount). rewrite add_row_eq.
  destruct (Z.ltb_spec (Table__columns (self w)) 0) as [Hc|Hc]; [done|].
  split_and!; simpl.
  - apply NoDup_app. split_and!; [done | | apply NoDup_singleton].
    intros l Hl ->%list_elem_of_singleton. apply Hrows in Hl. lia.
  - intros l [Hl | ->%list_elem_of_singleton]%elem_of_app.
    + destruct (Hrows l Hl) as [Hlt Hlen].
      rewrite length_app, lookup_total_app_l by done.
      split; [lia | done].
    + rewrite length_app, list_lookup_total_middle by done.
      rewrite length_fit by done. simpl. split; lia.
  - rewrite length_app. simpl. lia.
Qed.

Lemma table_inv_del_row index w :
  table_inv w -> table_inv (snd (del_row index w)).
Proof.
  intros (Hnd & Hrows & Hcount). rewrite del_row_eq.
  destruct (py_index _ _) as [k|] eqn:Hk; [|done].
  apply py_index_Some in Hk.
  split_and!; simpl.
  - eapply sublist_NoDup; [done | apply sublist_delete].
  - intros l Hl. apply Hrows.
    eapply elem_of_sublist; [done | apply sublist_delete].
  - rewrite length_delete by by apply lookup_lt_is_Some. lia.
Qed.

Lemma table_inv_add_column placeholder w :
  table_inv w -> table_inv (snd (add_column placeholder w)).
Proof.
  intros (Hnd & Hrows & Hcount). rewrite add_column_eq by done.
  split_and!; cbn [snd self store Table__columns Table__rows Table__table];
    [done | | done].
  intros l Hl. destruct (Hrows l Hl) as [Hlt Hlen].
  rewrite length_update_rows, update_rows_at by done.
  rewrite length_app. simpl. split; lia.
Qed.

Lemma table_inv_del_column index w :
  table_inv w -> table_inv (snd (del_column index w)).
Proof.
  intros (Hnd & Hrows & Hcount).
  rewrite (del_column_eq index (Z.to_nat (Table__columns (self w))))
    by (try done; unfold contents; rewrite Forall_fmap, Forall_forall;
        intros l Hl; apply Hrows in Hl; simpl; lia).
  destruct (Table__table (self w)) as [|l0 ls] eqn:Et.
  { split_and!; simpl; [apply NoDup_nil_2 | | done].
    intros l Hl. by apply elem_of_nil in Hl. }
  destruct (py_index _ _) as [k|] eqn:Hk.
  - apply py_index_Some in Hk.
    split_and!; cbn [snd self store Table__columns Table__rows Table__table];
      [done | | done].
    intros l Hl. destruct (Hrows l Hl) as [Hlt Hlen].
    rewrite length_update_rows, update_rows_at by done.
    rewrite length_delete by (apply lookup_lt_is_Some; lia).
    split; lia.
  - unfold table_inv. cbn [snd]. by rewrite Et.
Qed.

Lemma table_inv_set_column info row_index column_index w :
  table_inv w -> table_inv (snd (set_column info row_index column_index w)).
Proof.
  intros (Hnd & Hrows & Hcount). rewrite set_column_eq.
  destruct (subscript _ _) as [l|] eqn:Hl; [|done].
  destruct (py_index _ _) as [k|] eqn:Hk; [|done].
  split_and!; simpl; [done | | done].
  intros l' Hl'. destruct (Hrows l' Hl') as [Hlt Hlen].
  rewrite length_insert. split; [done|].
  destruct (decide (l = l')) as [->|Hne].
  - rewrite list_lookup_total_insert_eq by done. by rewrite length_insert.
  - by rewrite list_lookup_total_insert_ne.
Qed.

Lemma reachable_table_inv w : reachable w -> table_inv w.
Proof.
  induction 1 as [objs columns | w op _ IH]; [apply table_inv_new|].
  destruct op; simpl;
    auto using table_inv_add_row, table_inv_del_row, table_inv_add_column,
      table_inv_del_column, table_inv_set_column.
Qed.
End TableInvariant.

(** Row access. *)
Section TableGetFacts.
Context {Obj : Type}.
Implicit Types (w : @world Obj).

Lemma get_row_eq index w :
  get_row index w =
    match subscript (Table__table (self w)) index with
    | None => (Raise IndexError, w)
    | Some l => (Ok l, w)
    end.
Proof. unfold get_row, bind, gets. simpl. by destruct (subscript _ _). Qed.

Lemma subscript_last {A} (xs : list A) x : subscript (xs ++ [x]) (-1) = Some x.
Proof.
  unfold subscript. rewrite py_index_last by (rewrite length_app; simpl; lia).
  rewrite length_app. simpl.
  replace (length xs + 1 - 1)%nat with (length xs) by lia.
  by rewrite list_lookup_middle.
Qed.

Lemma subscript_length {A} (xs : list A) x :
  subscript (xs ++ [x]) (Z.of_nat (length xs)) = Some x.
Proof.
  unfold subscript.
  rewrite py_index_nonneg by (rewrite length_app; simpl; lia).
  rewrite Nat2Z.id. by rewrite list_lookup_middle.
Qed.
End TableGetFacts.

(** C5: on a table with [columns >= 0], [add_row] returns normally and
    [get_row] on the new row (index [-1], or the old number of rows) gives
    the row just made, of length exactly [columns]: the values followed by
    empty markers when fewer than [columns] were given, the first
    [columns] values when more were. *)
Theorem add_row_get_row {Obj : Type} (w : @world Obj)
    (objects : list (cell Obj)) :
  0 <= Table__columns (self w) ->
  let columns := Table__columns (self w) in
  let w' := snd (add_row objects w) in
  let l := length (store w) in
  fst (add_row objects w) = Ok tt /\
  get_row (-1) w' = (Ok l, w') /\
  get_row (Z.of_nat (length (Table__table (self w)))) w' = (Ok l, w') /\
  store w' !!! l = fit columns objects /\
  Z.of_nat (length (fit columns objects)) = columns /\
  Table__columns (self w') = columns /\
  (Z.of_nat (length objects) <= columns ->
   fit columns objects =
     objects
     ++ replicate (Z.to_nat (columns - Z.of_nat (length objects))) None) /\
  (columns <= Z.of_nat (length objects) ->
   fit columns objects = take (Z.to_nat columns) objects).
Proof.
  intros Hc columns w' l. subst w'. rewrite add_row_eq.
  rewrite (proj2 (Z.ltb_ge _ _)) by done. cbn [fst snd].
  rewrite !get_row_eq. cbn [self store Table__table Table__columns].
  rewrite subscript_last, subscript_length.
  split_and!; try done.
  - by rewrite list_lookup_total_middle.
  - rewrite length_fit by done. lia.
  - apply fit_pad.
  - apply fit_cut.
Qed.

Lemma add_row_get_row_witness :
  0 <= Table__columns (self table_ab) /\
  get_row (-1) table_abx = (Ok 1%nat, table_abx) /\
  store table_abx !!! 1%nat = [Some "x"; None].
Proof.
  split; [by vm_compute|].
  destruct (add_row_get_row table_ab [Some "x"]) as (_ & H1 & _ & H2 & _).
  - by vm_compute.
  - split; [exact H1 | exact H2].
Defined.

(** [del_column] on a table without rows. *)
Section DelColumnEmpty.
Context {Obj : Type}.
Implicit Types (w : @world Obj).

Lemma del_column_empty index w :
  Table__table (self w) = [] ->
  del_column index w =
    (Ok tt,
     mkWorld (store w)
       (mkTable (Table__columns (self w) - 1) (Table__rows (self w)) [])).
Proof.
  intros Ht. unfold del_column, bind, gets. cbn beta iota. rewrite Ht.
  cbn [for_each]. unfold ret, update_self, modify. by rewrite Ht.
Qed.

Lemma del_columns_empty indices w :
  Table__table (self w) = [] ->
  for_each indices del_column w =
    (Ok tt,
     mkWorld (store w)
       (mkTable (Table__columns (self w) - Z.of_nat (length indices))
          (Table__rows (self w)) [])).
Proof.
  revert w. induction indices as [|i indices IH]; intros w Ht.
  - cbn [for_each length]. unfold ret. rewrite Z.sub_0_r, <- Ht.
    by destruct w as [st []].
  - cbn [for_each]. unfold bind. rewrite del_column_empty by done.
    rewrite IH by done. cbn [self store Table__columns Table__rows length].
    do 3 f_equal. lia.
Qed.
End DelColumnEmpty.

(** C10: on a table with no row, [del_column(index)] returns normally for
    every integer [index], no row being visited, and takes one off
    [columns]; calls in a row take off one each, so [columns] goes
    negative once there are more calls than it counted. *)
Theorem del_column_no_rows {Obj : Type} (w : @world Obj) :
  Table__table (self w) = [] ->
  (forall index,
     del_column index w =
       (Ok tt,
        mkWorld (store w)
          (mkTable (Table__columns (self w) - 1) (Table__rows (self w)) [])))
  /\
  (forall indices,
     for_each indices del_column w =
       (Ok tt,
        mkWorld (store w)
          (mkTable (Table__columns (self w) - Z.of_nat (length indices))
             (Table__rows (self w)) [])))
  /\
  (forall indices,
     Table__columns (self w) < Z.of_nat (length indices) ->
     Table__columns (self (snd (for_each indices del_column w))) < 0).
Proof.
  intros Ht. split_and!.
  - intros index. by apply del_column_empty.
  - intros indices. by apply del_columns_empty.
  - intros indices Hn. rewrite del_columns_empty by done. simpl. lia.
Qed.

Lemma del_column_no_rows_witness :
  Table__table (self (mkWorld ([] : list (row string)) (Table_init 0))) = []
  /\
  del_column 5 (mkWorld ([] : list (row string)) (Table_init 0)) =
    (Ok tt, mkWorld [] (mkTable (-1) 0 [])).
Proof.
  split; [reflexivity|].
  apply (del_column_no_rows (mkWorld [] (Table_init 0))). reflexivity.
Defined.

(** Rendering. *)
Section GetTableFacts.
Context {Obj : Type}.
Variable str : Obj -> string.

Lemma append_nil_r (a : string) : a +:+ EmptyString = a.
Proof. induction a as [|x a IH]; [done|]. by rewrite append_cons, IH. Qed.

Lemma fold_left_append (texts : list string) (acc : string) :
  fold_left (fun return_str t => return_str +:+ t) texts acc =
    acc +:+ fold_right String.append EmptyString texts.
Proof.
  revert acc. induction texts as [|t texts IH]; intros acc; simpl.
  - by rewrite append_nil_r.
  - by rewrite IH, append_assoc.
Qed.

Lemma fold_right_append_acc (texts : list string) (acc : string) :
  fold_right String.append acc texts =
    fold_right String.append EmptyString texts +:+ acc.
Proof.
  induction texts as [|t texts IH]; simpl; [done|].
  by rewrite IH, append_assoc.
Qed.

Lemma fold_left_row_text (rs : list (row Obj)) (acc : string) :
  fold_left (fun return_str r => return_str +:+ row_text str r) rs acc =
    acc +:+ fold_right String.append EmptyString (map (row_text str) rs).
Proof.
  rewrite <- fold_left_append. revert acc.
  induction rs as [|r rs IH]; intros acc; simpl; [done|]. apply IH.
Qed.

Lemma get_table_eq (w : @world Obj) :
  get_table str w =
    (Ok (fold_right String.append EmptyString (map (row_text str) (contents w))), w).
Proof.
  unfold get_table, bind, gets, ret. cbn beta iota.
  by rewrite fold_left_row_text.
Qed.
End GetTableFacts.

(** C6: [get_table] returns the lines of the rows one after the other,
    each row as its cells between ["| "], [" | "] and [" |"] with the
    empty marker as a blank cell, and a newline after each row, the last
    one too; [Table(2)] after [add_row("a","b")] and [add_row("x")] holds
    the rows [["a","b"]] and [["x", None]] and renders as the two lines
    ["| a | b |\n"] and ["| x |  |\n"]. *)
Theorem get_table_renders :
  (forall (Obj : Type) (str : Obj -> string) (w : @world Obj),
     get_table str w =
       (Ok (fold_right String.append EmptyString
              (map (fun r =>
                      "| " +:+ String.concat " | " (map (cell_text str) r)
                      +:+ " |" +:+ nl)
                   (contents w))), w)) /\
  (forall (Obj : Type) (str : Obj -> string), cell_text str None = EmptyString) /\
  (forall (Obj : Type) (str : Obj -> string) (rs : list (row Obj)) r,
     fold_right String.append EmptyString (map (row_text str) (rs ++ [r])) =
       (fold_right String.append EmptyString (map (row_text str) rs)
        +:+ "| " +:+ String.concat " | " (map (cell_text str) r) +:+ " |")
       +:+ nl) /\
  contents table_abx = [[Some "a"; Some "b"]; [Some "x"; None]] /\
  get_table id table_abx =
    (Ok ("| a | b |" +:+ nl +:+ "| x |  |" +:+ nl), table_abx).
Proof.
  split_and!.
  - intros. apply get_table_eq.
  - done.
  - intros Obj str rs r.
    rewrite map_app, fold_right_app. cbn [map fold_right].
    rewrite append_nil_r, fold_right_append_acc. unfold row_text at 2.
    by rewrite <- !append_assoc.
  - reflexivity.
  - reflexivity.
Qed.

(** Point access. *)
Section SetColumnFacts.
Context {Obj : Type}.
Implicit Types (w : @world Obj).

Lemma get_column_eq row_index column_index w :
  get_column row_index column_index w =
    match subscript (Table__table (self w)) row_index with
    | None => (Raise IndexError, w)
    | Some l =>
        match subscript (store w !!! l) column_index with
        | None => (Raise IndexError, w)
        | Some v => (Ok v, w)
        end
    end.
Proof.
  unfold get_column, bind, gets. cbn beta iota.
  destruct (subscript _ _) as [l|]; [|done].
  unfold deref, gets. by destruct (subscript _ _).
Qed.

Lemma length_contents w :
  length (contents w) = length (Table__table (self w)).
Proof. unfold contents. apply length_map. Qed.

Lemma contents_lookup w i :
  contents w !! i = (fun l => store w !!! l) <$> Table__table (self w) !! i.
Proof. unfold contents. apply list_lookup_fmap. Qed.

(** On separate rows, replacing one row object changes one row. *)
Lemma contents_insert st t i l (r : row Obj) :
  NoDup (Table__table t) ->
  Table__table t !! i = Some l ->
  (l < length st)%nat ->
  contents (mkWorld (<[l := r]> st) t) = <[i := r]> (contents (mkWorld st t)).
Proof.
  intros Hnd Hi Hl. apply list_eq. intros j.
  rewrite contents_lookup. cbn [self store].
  destruct (decide (j = i)) as [->|Hji].
  - rewrite Hi. cbn. rewrite list_lookup_total_insert_eq by done.
    rewrite list_lookup_insert_eq; [done|].
    rewrite length_contents. by eapply lookup_lt_Some.
  - rewrite list_lookup_insert_ne by done. rewrite contents_lookup.
    cbn [self store].
    destruct (Table__table t !! j) as [l'|] eqn:Hj; [|done]. cbn.
    rewrite list_lookup_total_insert_ne; [done|].
    intros ->. apply Hji. by eapply NoDup_lookup.
Qed.
End SetColumnFacts.

(** C9: on a table a program can hold, for a row index and a column index
    in range (counted from either end), [set_column(info, r, c)] returns
    normally, [get_column(r, c)] then returns [info], and the table is
    what it was but for that one cell. *)
Theorem set_column_get_column {Obj : Type} (w : @world Obj)
    (info : cell Obj) (row_index column_index : Z) (i k : nat)
    (cells : row Obj) :
  reachable w ->
  py_index (length (contents w)) row_index = Some i ->
  contents w !! i = Some cells ->
  py_index (length cells) column_index = Some k ->
  let w' := snd (set_column info row_index column_index w) in
  fst (set_column info row_index column_index w) = Ok tt /\
  get_column row_index column_index w' = (Ok info, w') /\
  self w' = self w /\
  contents w' = <[i := <[k := info]> cells]> (contents w) /\
  (forall i' k', (i', k') <> (i, k) -> cell_at w' i' k' = cell_at w i' k').
Proof.
  intros Hr Hi Hcells Hk w'.
  apply reachable_table_inv in Hr as (Hnd & Hrows & _).
  rewrite length_contents in Hi.
  rewrite contents_lookup in Hcells.
  destruct (Table__table (self w) !! i) as [l|] eqn:Hl; [|done].
  cbn in Hcells. injection Hcells as <-.
  assert (l ∈ Table__table (self w)) as Hin by by eapply list_elem_of_lookup_2.
  destruct (Hrows l Hin) as [Hlt _].
  assert (subscript (Table__table (self w)) row_index = Some l) as Hsub.
  { unfold subscript. by rewrite Hi. }
  assert (w' = mkWorld (<[l := <[k := info]> (store w !!! l)]> (store w))
                 (self w)) as Hw'.
  { subst w'. by rewrite set_column_eq, Hsub, Hk. }
  assert (contents w' =
            <[i := <[k := info]> (store w !!! l)]> (contents w)) as Hcont.
  { rewrite Hw'. rewrite (contents_insert _ _ i) by done.
    by destruct w. }
  split_and!.
  - by rewrite set_column_eq, Hsub, Hk.
  - rewrite get_column_eq, Hw'. cbn [self store]. rewrite Hsub.
    rewrite list_lookup_total_insert_eq by done.
    unfold subscript. rewrite length_insert, Hk.
    rewrite list_lookup_insert_eq; [done|]. by eapply py_index_Some.
  - by rewrite Hw'.
  - done.
  - intros i' k' Hne. unfold cell_at. rewrite Hcont.
    destruct (decide (i' = i)) as [->|Hi'].
    + rewrite list_lookup_insert_eq
        by (rewrite length_contents; by eapply lookup_lt_Some).
      rewrite contents_lookup, Hl. cbn.
      rewrite list_lookup_insert_ne; [done|]. intros ->. by apply Hne.
    + by rewrite list_lookup_insert_ne.
Qed.

Lemma set_column_get_column_witness :
  reachable table_abx /\
  get_column (-1) 1
    (snd (set_column (Some "y") (-1) 1 table_abx)) =
    (Ok (Some "y"), snd (set_column (Some "y") (-1) 1 table_abx)) /\
  contents (snd (set_column (Some "y") (-1) 1 table_abx)) =
    [[Some "a"; Some "b"]; [Some "x"; Some "y"]].
Proof.
  assert (reachable table_abx) as Hr.
  { apply (reachable_call _ (AddRow [Some "x"])).
    apply (reachable_call _ (AddRow [Some "a"; Some "b"])).
    apply reachable_new. }
  split; [exact Hr|].
  destruct (set_column_get_column table_abx (Some "y") (-1) 1 1 1
              [Some "x"; None] Hr eq_refl eq_refl eq_refl)
    as (_ & Hget & _ & Hcont & _).
  split; [exact Hget | exact Hcont].
Defined.

(** Resizing. *)
Section ResizeFacts.
Context {Obj : Type}.
Implicit Types (w : @world Obj).

Lemma contents_update_rows (f : row Obj -> row Obj) st (t t' : Table) :
  NoDup (Table__table t) ->
  (forall l, l ∈ Table__table t -> (l < length st)%nat) ->
  Table__table t' = Table__table t ->
  contents (mkWorld (update_rows f (Table__table t) st) t') =
    map f (contents (mkWorld st t)).
Proof.
  intros Hnd Hlt Ht. unfold contents. cbn [self store]. rewrite Ht.
  rewrite map_map. apply map_ext_in. intros l Hl%list_elem_of_In.
  apply update_rows_at; auto.
Qed.
End ResizeFacts.

(** C4: on every table reached from a new one by calls of [add_row],
    [del_row], [add_column], [del_column] and [set_column], returning or
    raising, every row is [columns] long and [rows] is the number of rows.
    [add_column] returns normally and makes every row one cell longer.
    [del_column] with an index in range for the rows returns normally and
    takes the cell at that index out of every row, making each one cell
    shorter; with an index out of range it raises [IndexError] and has
    changed nothing; on a table without rows it returns normally.  Both
    move [columns] by one.  [add_row] and [del_row] leave [columns] as it
    is. *)
Theorem table_invariants {Obj : Type} (w : @world Obj) :
  reachable w ->
  let columns := Table__columns (self w) in
  Forall (fun r => Z.of_nat (length r) = columns) (contents w) /\
  Table__rows (self w) = Z.of_nat (length (contents w)) /\
  (forall placeholder,
     let w' := snd (add_column placeholder w) in
     fst (add_column placeholder w) = Ok tt /\
     Table__columns (self w') = columns + 1 /\
     contents w' = map (fun r => r ++ [placeholder]) (contents w) /\
     Forall (fun r => Z.of_nat (length r) = columns + 1) (contents w')) /\
  (forall index,
     let w' := snd (del_column index w) in
     match contents w with
     | [] =>
         fst (del_column index w) = Ok tt /\
         Table__columns (self w') = columns - 1 /\
         contents w' = []
     | _ :: _ =>
         match py_index (Z.to_nat columns) index with
         | Some k =>
             fst (del_column index w) = Ok tt /\
             Table__columns (self w') = columns - 1 /\
             contents w' = map (delete k) (contents w) /\
             Forall (fun r => Z.of_nat (length r) = columns - 1)
                    (contents w')
         | None => del_column index w = (Raise IndexError, w)
         end
     end) /\
  (forall objects,
     Table__columns (self (snd (add_row objects w))) = columns) /\
  (forall index, Table__columns (self (snd (del_row index w))) = columns).
Proof.
  intros Hr columns.
  assert (forall w' : @world Obj, reachable w' ->
            Forall (fun r => Z.of_nat (length r) = Table__columns (self w'))
                   (contents w')) as Hrect.
  { intros w' Hr'. apply reachable_table_inv, table_inv_iff in Hr'.
    apply Hr'. }
  pose proof (reachable_table_inv w Hr) as (Hnd & Hrows & Hcount).
  assert (forall l, l ∈ Table__table (self w) -> (l < length (store w))%nat)
    as Hlt by (intros l Hl; by apply Hrows).
  split_and!.
  - by apply Hrect.
  - by rewrite length_contents.
  - intros placeholder w'.
    pose proof (Hrect w' (reachable_call w (AddColumn placeholder) Hr)) as Hw'.
    subst w'. rewrite add_column_eq in * by done. cbn [fst snd] in *.
    split_and!; [done | done | | done].
    rewrite (contents_update_rows _ _ (self w)) by done. by destruct w.
  - intros index w'.
    pose proof (Hrect w' (reachable_call w (DelColumn index) Hr)) as Hw'.
    subst w'.
    rewrite (del_column_eq index (Z.to_nat columns)) in *
      by (try done; unfold contents; rewrite Forall_fmap, Forall_forall;
          intros l Hl; apply Hrows in Hl; simpl; lia).
    destruct (Table__table (self w)) as [|l0 ls] eqn:Et.
    { assert (contents w = []) as Hnil by (unfold contents; by rewrite Et).
      rewrite Hnil. cbn [fst snd] in *. split_and!; [done | done |].
      unfold contents. done. }
    assert (exists r rs, contents w = r :: rs) as (r & rs & Hcons).
    { unfold contents. rewrite Et. cbn. eauto. }
    rewrite Hcons. rewrite <- Hcons.
    destruct (py_index _ _) as [k|] eqn:Hk; cbn [fst snd] in *; [|done].
    split_and!; [done | done | | done].
    rewrite <- Et in *.
    rewrite (contents_update_rows _ _ (self w)) by done. by destruct w.
  - intros objects. rewrite add_row_eq. by case_match.
  - intros index. rewrite del_row_eq. by case_match.
Qed.

Lemma table_invariants_witness :
  reachable table_abx /\
  Forall (fun r => Z.of_nat (length r) = 2) (contents table_abx) /\
  Table__rows (self table_abx) = 2 /\
  contents (snd (add_column (Some "z") table_abx)) =
    [[Some "a"; Some "b"; Some "z"]; [Some "x"; None; Some "z"]] /\
  fst (del_column 0 table_abx) = Ok tt /\
  contents (snd (del_column 0 table_abx)) = [[Some "b"]; [None]] /\
  del_column 2 table_abx = (Raise IndexError, table_abx).
Proof.
  assert (reachable table_abx) as Hr.
  { apply (reachable_call _ (AddRow [Some "x"])).
    apply (reachable_call _ (AddRow [Some "a"; Some "b"])).
    apply reachable_new. }
  split; [exact Hr|].
  destruct (table_invariants table_abx Hr)
    as (Hrect & Hrows & Hadd & Hdel & _).
  split; [exact Hrect|]. split; [exact Hrows|].
  destruct (Hadd (Some "z")) as (_ & _ & Hcontents & _).
  split; [exact Hcontents|].
  pose proof (Hdel 0) as Hin. destruct Hin as (Hok & _ & Hcut & _).
  split; [exact Hok|]. split; [exact Hcut|].
  exact (Hdel 2).
Defined.

(** * Further properties *)

(** ** Theme *)

(** The five keys stay in the mapping whatever is called. *)
Lemma run_theme_ops_construct_keys DEFAULT i w e s st ops :
  Forall (fun name =>
            is_Some (Theme__styles
                       (run_theme_ops DEFAULT ops
                          (Theme_init DEFAULT i w e s st)) !! name))
         construct_keys.
Proof.
  induction ops as [|op ops IH] using rev_ind.
  - change (run_theme_ops DEFAULT [] ?t) with t. unfold Theme_init.
    repeat constructor; rewrite lookup_construct; by eexists.
  - rewrite run_theme_ops_snoc.
    set (t := run_theme_ops DEFAULT ops _) in *.
    destruct op as [c|c|c|c|objects]; cbn [exec_theme_op].
    1-3: repeat constructor; unfold set_info, set_warning, set_error,
           bind, modify; cbn [snd]; rewrite lookup_construct; by eexists.
    + exact IH.
    + eapply Forall_impl; [exact IH|]. intros name [code Hc]. simpl.
      rewrite lookup_union, Hc. destruct (objects !! name); by eexists.
Qed.

(** X1: on a theme made by the constructor and put through any calls of
    the setters, the bulk mutator included, [get_style] returns normally
    for each of [info], [warning], [success], [error] and [default], and
    leaves the theme as it is. *)
Theorem construct_keys_registered DEFAULT i w e s st ops :
  let t := run_theme_ops DEFAULT ops (Theme_init DEFAULT i w e s st) in
  Forall (fun name => exists code, get_style name t = (Ok code, t))
         construct_keys.
Proof.
  intros t. eapply Forall_impl; [apply run_theme_ops_construct_keys|].
  intros name [code Hc]. exists code. unfold get_style. subst t.
  by rewrite Hc.
Qed.

(** X2: a call of the [info], [warning] or [error] setter, on any theme,
    stores the new value in its field, leaves the other three fields, and
    brings the mapping in line with all four fields and [DEFAULT]: a
    [success] value that the mapping did not show yet shows from then
    on. *)
Theorem setters_resynchronize DEFAULT (t : Theme) (c : string) :
  let synced (t' : Theme) :=
    fst (get_style "info" t') = Ok (Theme__info t') /\
    fst (get_style "warning" t') = Ok (Theme__warning t') /\
    fst (get_style "error" t') = Ok (Theme__error t') /\
    fst (get_style "success" t') = Ok (Theme__success t') /\
    fst (get_style "default" t') = Ok DEFAULT in
  (let t' := snd (set_info DEFAULT c t) in
   synced t' /\ Theme__info t' = c /\ Theme__warning t' = Theme__warning t /\
   Theme__error t' = Theme__error t /\ Theme__success t' = Theme__success t) /\
  (let t' := snd (set_warning DEFAULT c t) in
   synced t' /\ Theme__info t' = Theme__info t /\ Theme__warning t' = c /\
   Theme__error t' = Theme__error t /\ Theme__success t' = Theme__success t) /\
  (let t' := snd (set_error DEFAULT c t) in
   synced t' /\ Theme__info t' = Theme__info t /\
   Theme__warning t' = Theme__warning t /\ Theme__error t' = c /\
   Theme__success t' = Theme__success t).
Proof.
  intros synced. unfold synced, set_info, set_warning, set_error, bind, modify.
  cbn [snd]. rewrite !fst_get_style, !lookup_construct.
  split_and!; reflexivity.
Qed.

(** X3: the four dedicated setters change what [get_style] answers for
    no name other than the five that [__construct] assigns. *)
Theorem setters_spare_other_names DEFAULT (t : Theme) (c name : string) :
  name ∉ construct_keys ->
  fst (get_style name (snd (set_info DEFAULT c t))) = fst (get_style name t) /\
  fst (get_style name (snd (set_warning DEFAULT c t))) =
    fst (get_style name t) /\
  fst (get_style name (snd (set_error DEFAULT c t))) =
    fst (get_style name t) /\
  fst (get_style name (snd (set_success c t))) = fst (get_style name t).
Proof.
  intros Hout.
  assert (name <> "default" /\ name <> "info" /\ name <> "warning"
          /\ name <> "error" /\ name <> "success") as (?&?&?&?&?).
  { unfold construct_keys in Hout.
    rewrite !elem_of_cons, elem_of_nil in Hout. tauto. }
  unfold set_info, set_warning, set_error, set_success, bind, modify.
  cbn [snd]. rewrite !fst_get_style, !lookup_construct.
  rewrite !decide_False by assumption. by split_and!.
Qed.

Lemma setters_spare_other_names_witness :
  ("bold" ∉ construct_keys) /\
  fst (get_style "bold" (snd (set_info "[0m" "[34m" sample_theme))) =
    Ok "[1m".
Proof.
  assert ("bold" ∉ construct_keys) as H.
  { unfold construct_keys. rewrite !elem_of_cons, elem_of_nil.
    intros [?|[?|[?|[?|[?|[]]]]]]; discriminate. }
  split; [exact H|].
  destruct (setters_spare_other_names "[0m" sample_theme "[34m" "bold" H)
    as [-> _].
  reflexivity.
Defined.

(** X4: two bulk updates in a row amount to one, with their pairs merged
    and the later pair winning; a bulk update changes none of the four
    fields. *)
Theorem set_styles_compose (t : Theme) (a b : gmap string string) :
  snd (set_styles b (snd (set_styles a t))) = snd (set_styles (b ∪ a) t) /\
  Theme__info (snd (set_styles a t)) = Theme__info t /\
  Theme__warning (snd (set_styles a t)) = Theme__warning t /\
  Theme__error (snd (set_styles a t)) = Theme__error t /\
  Theme__success (snd (set_styles a t)) = Theme__success t.
Proof.
  split_and!; try done.
  unfold set_styles, modify, with_styles. cbn [snd Theme__styles Theme__info
    Theme__warning Theme__error Theme__success].
  apply (f_equal (mkTheme _ _ _ _)), (assoc_L union).
Qed.

(** ** Console *)

Section StripFacts.

Lemma append_nil_l (a : string) : EmptyString +:+ a = a.
Proof. reflexivity. Qed.

Lemma str_repeat_space_cons n :
  str_repeat " " (S n) = String " " (str_repeat " " n).
Proof. reflexivity. Qed.

Lemma str_mul_nonpos (s : string) (n : Z) : n <= 0 -> str_mul s n = EmptyString.
Proof. intros H. unfold str_mul. by replace (Z.to_nat n) with 0%nat by lia. Qed.

Lemma lstrip_spaces n : lstrip (str_repeat " " n) = EmptyString.
Proof. induction n as [|n IH]; [done|]. by rewrite str_repeat_space_cons. Qed.

Lemma lstrip_append (a b : string) :
  lstrip (a +:+ b) =
    match lstrip a with
    | EmptyString => lstrip b
    | kept => kept +:+ b
    end.
Proof.
  induction a as [|x a IH]; [by rewrite append_nil_l|]. rewrite append_cons.
  destruct (Ascii.eqb_spec x " ") as [->|Hx].
  - exact IH.
  - assert (forall r, lstrip (String x r) = String x r) as E.
    { intros r. simpl. destruct x as [[] [] [] [] [] [] [] []]; try done. }
    by rewrite !E.
Qed.

Lemma rstrip_spaces n : rstrip (str_repeat " " n) = EmptyString.
Proof.
  induction n as [|n IH]; [done|]. rewrite str_repeat_space_cons.
  simpl. by rewrite IH.
Qed.

Lemma rstrip_append (a b : string) :
  rstrip (a +:+ b) =
    match rstrip b with
    | EmptyString => rstrip a
    | kept => a +:+ kept
    end.
Proof.
  induction a as [|x a IH].
  - rewrite append_nil_l. simpl. by destruct (rstrip b).
  - rewrite append_cons. cbn [rstrip]. rewrite IH.
    destruct (rstrip b) as [|y kept]; [done|].
    rewrite append_cons. by destruct (a +:+ String y kept) eqn:E;
      [destruct a; discriminate|].
Qed.

Lemma rstrip_spaces_append n (b : string) :
  rstrip (str_repeat " " n +:+ b) =
    match rstrip b with
    | EmptyString => EmptyString
    | kept => str_repeat " " n +:+ kept
    end.
Proof. by rewrite rstrip_append, rstrip_spaces. Qed.

End StripFacts.

(** X5: an alignment that is none of the three tokens makes
    [__align_text] raise [ValueError] with a message that ends in the
    offending value, whatever the text and the width. *)
Theorem align_text_invalid (CENTER LEFT RIGHT : string) (W : Z)
    (text alignment : string) :
  alignment <> CENTER -> alignment <> RIGHT -> alignment <> LEFT ->
  align_text CENTER LEFT RIGHT W text alignment =
    Raise (ValueError
             ("Invalid argument for function 'Console.__align_text': "
              +:+ alignment)).
Proof.
  intros HC HR HL. unfold align_text.
  by rewrite !(proj2 (String.eqb_neq _ _)) by done.
Qed.

Lemma align_text_invalid_witness :
  "middle" <> "center" /\
  align_text "center" "left" "right" 80 "abc" "middle" =
    Raise (ValueError
             "Invalid argument for function 'Console.__align_text': middle").
Proof.
  split; [discriminate|].
  apply (align_text_invalid "center" "left" "right" 80 "abc" "middle");
    discriminate.
Defined.

(** X6: center alignment of a text at least as long as the terminal is
    wide returns the text as it is: both paddings are empty. *)
Theorem center_no_room (CENTER LEFT RIGHT : string) (W : Z) (text : string) :
  W <= len text ->
  align_text CENTER LEFT RIGHT W text CENTER = Ok text.
Proof.
  intros H. unfold align_text. rewrite String.eqb_refl. cbn zeta.
  assert ((W - len text) / 2 <= 0) as Hp.
  { apply Z.div_le_upper_bound; lia. }
  assert (W - len text - (W - len text) / 2 <= 0) as Hq.
  { pose proof (Z.div_mod (W - len text) 2 ltac:(lia)).
    pose proof (Z.mod_pos_bound (W - len text) 2 ltac:(lia)). lia. }
  rewrite !str_mul_nonpos by done.
  by rewrite append_nil_l, append_nil_r.
Qed.

Lemma center_no_room_witness :
  5 <= len "abcdefg" /\
  align_text "center" "left" "right" 5 "abcdefg" "center" = Ok "abcdefg".
Proof.
  split; [by vm_compute|].
  apply (center_no_room "center" "left" "right" 5 "abcdefg"). by vm_compute.
Defined.

(** X7: left alignment returns the text without its own leading spaces,
    followed by the padding computed from the full length of the text;
    a text of spaces only, or empty, gives the empty string. *)
Theorem left_alignment_strips (CENTER LEFT RIGHT : string) (W : Z)
    (text : string) :
  LEFT <> CENTER -> LEFT <> RIGHT ->
  align_text CENTER LEFT RIGHT W text LEFT =
    Ok (match lstrip text with
        | EmptyString => EmptyString
        | kept => kept +:+ str_mul " " (W - len text)
        end).
Proof.
  intros HC HR. unfold align_text.
  rewrite !(proj2 (String.eqb_neq _ _)) by done. rewrite String.eqb_refl.
  rewrite lstrip_append. unfold str_mul. by rewrite lstrip_spaces.
Qed.

Lemma left_alignment_strips_witness :
  "left" <> "center" /\
  align_text "center" "left" "right" 10 "  abc" "left" = Ok "abc     ".
Proof.
  split; [discriminate|].
  rewrite (left_alignment_strips "center" "left" "right" 10 "  abc");
    [reflexivity | discriminate | discriminate].
Defined.

(** X8: right alignment returns the padding computed from the full
    length of the text, followed by the text without its own trailing
    spaces; a text of spaces only, or empty, gives the empty string. *)
Theorem right_alignment_strips (CENTER LEFT RIGHT : string) (W : Z)
    (text : string) :
  RIGHT <> CENTER ->
  align_text CENTER LEFT RIGHT W text RIGHT =
    Ok (match rstrip text with
        | EmptyString => EmptyString
        | kept => str_mul " " (W - len text) +:+ kept
        end).
Proof.
  intros HC. unfold align_text.
  rewrite !(proj2 (String.eqb_neq _ _)) by done. rewrite String.eqb_refl.
  unfold str_mul. by rewrite rstrip_spaces_append.
Qed.

Lemma right_alignment_strips_witness :
  "right" <> "center" /\
  align_text "center" "left" "right" 10 "abc  " "right" = Ok "     abc".
Proof.
  split; [discriminate|].
  rewrite (right_alignment_strips "center" "left" "right" 10 "abc  ");
    [reflexivity | discriminate].
Defined.

Section ConsoleFacts.
Variables CENTER LEFT RIGHT : string.
Variables BOLD UNDERLINE STOP CLEAR : string.

Lemma write_eq text alignment end_ sep style (w : screen) :
  write CENTER LEFT RIGHT text alignment end_ sep style w =
    match Theme__styles (Console__theme w) !! style with
    | None => (Raise (KeyError style), w)
    | Some code =>
        if terminal_present w then
          match align_text CENTER LEFT RIGHT (terminal_columns w)
                  (code +:+ text) alignment with
          | Raise e => (Raise e, w)
          | Ok aligned =>
              (Ok tt,
               mkScreen (Console__title w) (Console__theme w)
                 (terminal_columns w) (stdout w ++ [aligned +:+ end_])
                 (terminal_present w))
          end
        else (Raise OSError, w)
    end.
Proof.
  unfold write, bind, console_get_style, get_style, console_align_text,
    get_terminal_size_columns, print, modify.
  destruct w as [title theme columns out present]. cbn.
  destruct (Theme__styles theme !! style) as [code|]; [|done].
  destruct present; cbn; [|done].
  by destruct (align_text _ _ _ _ _ _).
Qed.

Lemma log_eq text end_ sep style alignment (w : screen) :
  log CENTER LEFT RIGHT text end_ sep style alignment w =
    write CENTER LEFT RIGHT text alignment end_ sep style w.
Proof. reflexivity. Qed.

End ConsoleFacts.


(** X9: [write] and [log] with a style the theme does not have raise
    [KeyError(style)] and write nothing, whatever the alignment, a wrong
    one included: the style is looked up first. *)
Theorem write_unregistered (CENTER LEFT RIGHT : string)
    (text alignment end_ sep style : string) (w : screen) :
  Theme__styles (Console__theme w) !! style = None ->
  write CENTER LEFT RIGHT text alignment end_ sep style w =
    (Raise (KeyError style), w) /\
  log CENTER LEFT RIGHT text end_ sep style alignment w =
    (Raise (KeyError style), w).
Proof. intros H. by rewrite log_eq, write_eq, H. Qed.

Lemma write_unregistered_witness :
  Theme__styles sample_theme !! "blink" = None /\
  write "center" "left" "right" "hello" "middle" "[0m" " " "blink"
        (mkScreen "Title" sample_theme 80 [] true) =
    (Raise (KeyError "blink"), mkScreen "Title" sample_theme 80 [] true).
Proof.
  split; [reflexivity|].
  apply (write_unregistered "center" "left" "right" "hello" "middle" "[0m"
           " " "blink" (mkScreen "Title" sample_theme 80 [] true)).
  reflexivity.
Defined.

(** X10: a [write] that raises leaves the console and the output as they
    were; a [write] that returns has added exactly one chunk to the
    output, the aligned text of style code and text followed by [end],
    and changed nothing else. *)
Theorem write_all_or_nothing (CENTER LEFT RIGHT : string)
    (text alignment end_ sep style : string) (w : screen) :
  match write CENTER LEFT RIGHT text alignment end_ sep style w with
  | (Raise e, w') => w' = w
  | (Ok _, w') =>
      Console__title w' = Console__title w /\
      Console__theme w' = Console__theme w /\
      terminal_columns w' = terminal_columns w /\
      exists code aligned,
        Theme__styles (Console__theme w) !! style = Some code /\
        align_text CENTER LEFT RIGHT (terminal_columns w) (code +:+ text)
          alignment = Ok aligned /\
        stdout w' = stdout w ++ [aligned +:+ end_]
  end.
Proof.
  rewrite write_eq.
  destruct (Theme__styles (Console__theme w) !! style) as [code|] eqn:Hc;
    [|done].
  destruct (terminal_present w); [|done].
  destruct (align_text _ _ _ _ _ _) as [aligned|e] eqn:Ha; [|done].
  cbn. split_and!; try done. by exists code, aligned.
Qed.




(** ** ProgressBar *)

(** What a run does depends on the bar and the theme only. *)
Lemma run_loop_uniform (STOP : string) {delay_t : Type}
    (sleep_check : delay_t -> option exn) (self : ProgressBar delay_t)
    (style : string) (n : nat) (theme : Theme) :
  exists o es, forall w : env delay_t,
    env_theme w = theme ->
    run_loop STOP sleep_check n self style w = (o, add_trace w es).
Proof.
  induction n as [|n (o & es & IH)].
  - exists (Ok tt), []. intros w _. simpl. by rewrite add_trace_nil.
  - destruct (Theme__styles theme !! style) as [code|] eqn:Hc.
    + destruct (sleep_check (ProgressBar__delay self)) as [e|] eqn:Hd.
      * eexists (Raise e), _. intros w <-. cbn [run_loop]. unfold bind.
        by rewrite run_body_eq, Hc, Hd.
      * eexists o, (_ ++ es). intros w <-. cbn [run_loop]. unfold bind.
        rewrite run_body_eq, Hc. cbn zeta. rewrite Hd.
        rewrite IH by done. by rewrite add_trace_app.
    + eexists (Raise (KeyError style)), _. intros w <-. cbn [run_loop].
      unfold bind. by rewrite run_body_eq, Hc.
Qed.

(** X12: [run] never changes the theme and keeps no count of its own: it
    only adds calls to the trace, and a second [run] right after it makes
    the same calls over again and ends the same way. *)
Theorem run_repeatable (STOP : string) {delay_t : Type}
    (sleep_check : delay_t -> option exn) (self : ProgressBar delay_t)
    (style : string) (del_self del_self' : bool) (w : env delay_t) :
  exists o es,
    run STOP sleep_check self style del_self w = (o, add_trace w es) /\
    env_theme (add_trace w es) = env_theme w /\
    run STOP sleep_check self style del_self' (add_trace w es) =
      (o, add_trace w (es ++ es)).
Proof.
  destruct (run_loop_uniform STOP sleep_check self style
              (Z.to_nat (ProgressBar__values self)) (env_theme w))
    as (o & es & H).
  exists o, es. rewrite !run_eq. split_and!.
  - by apply H.
  - done.
  - rewrite H by done. by rewrite add_trace_app.
Qed.

(** ** Table *)

Section TableMoreFacts.
Context {Obj : Type}.
Implicit Types (w : @world Obj).

(** A row already there reads the same after a new object is allocated. *)
Lemma contents_alloc st (r : row Obj) (t t' : Table) :
  (forall l, l ∈ Table__table t -> (l < length st)%nat) ->
  Table__table t' = Table__table t ++ [length st] ->
  contents (mkWorld (st ++ [r]) t') = contents (mkWorld st t) ++ [r].
Proof.
  intros Hlt Ht. unfold contents. cbn [self store]. rewrite Ht, map_app.
  cbn [map]. rewrite list_lookup_total_middle by done. f_equal.
  apply map_ext_in. intros l Hl%list_elem_of_In.
  apply lookup_total_app_l. by apply Hlt.
Qed.

Lemma table_inv_rows w l :
  table_inv w -> l ∈ Table__table (self w) ->
  (l < length (store w))%nat /\
  Z.of_nat (length (store w !!! l)) = Table__columns (self w).
Proof. intros (_ & H & _). apply H. Qed.

Lemma table_eta (t : Table) :
  mkTable (Table__columns t) (Table__rows t) (Table__table t) = t.
Proof. by destruct t. Qed.
End TableMoreFacts.

(** X13: on a table a program can hold with [columns >= 0], [add_row]
    appends its row and leaves the rows already there as they are;
    [del_row(-1)] right after it gives back the table as it was. *)
Theorem add_row_del_row {Obj : Type} (w : @world Obj)
    (objects : list (cell Obj)) :
  reachable w ->
  0 <= Table__columns (self w) ->
  let w1 := snd (add_row objects w) in
  let w2 := snd (del_row (-1) w1) in
  contents w1 = contents w ++ [fit (Table__columns (self w)) objects] /\
  Table__rows (self w1) = Table__rows (self w) + 1 /\
  fst (del_row (-1) w1) = Ok tt /\
  self w2 = self w /\
  contents w2 = contents w.
Proof.
  intros Hr Hc w1 w2. pose proof (reachable_table_inv w Hr) as Hinv.
  assert (forall l, l ∈ Table__table (self w) -> (l < length (store w))%nat)
    as Hlt by (intros l Hl; by apply (table_inv_rows w l Hinv)).
  assert (w1 = mkWorld
                 (store w ++ [fit (Table__columns (self w)) objects])
                 (mkTable (Table__columns (self w)) (Table__rows (self w) + 1)
                    (Table__table (self w) ++ [length (store w)]))) as Hw1.
  { subst w1. rewrite add_row_eq. by rewrite (proj2 (Z.ltb_ge _ _)). }
  assert (contents w1 =
            contents w ++ [fit (Table__columns (self w)) objects]) as Hc1.
  { rewrite Hw1, (contents_alloc _ _ (self w)) by done. by destruct w. }
  assert (w2 = mkWorld (store w1)
                 (mkTable (Table__columns (self w)) (Table__rows (self w))
                    (Table__table (self w)))) as Hw2.
  { subst w2. rewrite del_row_eq, Hw1.
    cbn [self store Table__table Table__columns Table__rows].
    rewrite py_index_last by (rewrite length_app; simpl; lia).
    rewrite length_app. cbn [length snd].
    replace (length (Table__table (self w)) + 1 - 1)%nat
      with (length (Table__table (self w))) by lia.
    rewrite delete_middle, app_nil_r. do 2 f_equal. lia. }
  split_and!.
  - done.
  - by rewrite Hw1.
  - rewrite del_row_eq, Hw1. cbn [self Table__table].
    by rewrite py_index_last by (rewrite length_app; simpl; lia).
  - rewrite Hw2. cbn [self]. apply table_eta.
  - rewrite Hw2, Hw1. unfold contents.
    cbn [self store Table__table]. apply map_ext_in.
    intros l Hl%list_elem_of_In. apply lookup_total_app_l. by apply Hlt.
Qed.

Lemma add_row_del_row_witness :
  reachable table_ab /\
  self (snd (del_row (-1) (snd (add_row [Some "x"] table_ab)))) =
    self table_ab.
Proof.
  assert (reachable table_ab) as Hr.
  { apply (reachable_call _ (AddRow [Some "a"; Some "b"])).
    apply reachable_new. }
  split; [exact Hr|].
  apply (add_row_del_row table_ab [Some "x"] Hr). by vm_compute.
Defined.

(** X14: [add_row] on a table whose [columns] is negative raises
    [IndexError], from [pop] on the emptied list, and adds nothing. *)
Theorem add_row_negative_columns {Obj : Type} (w : @world Obj)
    (objects : list (cell Obj)) :
  Table__columns (self w) < 0 ->
  add_row objects w = (Raise IndexError, w).
Proof.
  intros Hc. rewrite add_row_eq. by rewrite (proj2 (Z.ltb_lt _ _)).
Qed.

Lemma add_row_negative_columns_witness :
  Table__columns (self (mkWorld ([] : list (row string)) (Table_init (-1))))
    < 0 /\
  add_row [Some "a"] (mkWorld [] (Table_init (-1))) =
    (Raise IndexError, mkWorld [] (Table_init (-1))).
Proof.
  split; [reflexivity|].
  apply (add_row_negative_columns (mkWorld [] (Table_init (-1)))).
  reflexivity.
Defined.

(** X15: [del_row] with an index out of range raises [IndexError] and
    changes nothing; otherwise it returns normally, takes the row at that
    position out, the later rows moving up by one, takes one off [rows]
    and leaves [columns] and the row objects as they are. *)
Theorem del_row_removes {Obj : Type} (w : @world Obj) (index : Z) :
  match py_index (length (contents w)) index with
  | None => del_row index w = (Raise IndexError, w)
  | Some k =>
      let w' := snd (del_row index w) in
      fst (del_row index w) = Ok tt /\
      contents w' = delete k (contents w) /\
      Table__rows (self w') = Table__rows (self w) - 1 /\
      Table__columns (self w') = Table__columns (self w) /\
      store w' = store w
  end.
Proof.
  rewrite length_contents, del_row_eq.
  destruct (py_index _ _) as [k|]; [|done]. cbn [fst snd].
  split_and!; try done.
  unfold contents. cbn [self store Table__table].
  apply (list_fmap_delete (fun l => store w !!! l)).
Qed.

Section TableColumnFacts.
Context {Obj : Type}.
Implicit Types (w : @world Obj).

Lemma subscript_in_range {A} (xs : list A) index i :
  py_index (length xs) index = Some i ->
  exists x, xs !! i = Some x /\ subscript xs index = Some x.
Proof.
  intros Hi. pose proof (py_index_Some _ _ _ Hi) as Hlt.
  destruct (lookup_lt_is_Some_2 xs i Hlt) as [x Hx].
  exists x. split; [done|]. unfold subscript. by rewrite Hi.
Qed.

(** The world [add_column] leaves, row by row. *)
Lemma add_column_rows placeholder w l :
  table_inv w -> l ∈ Table__table (self w) ->
  store (snd (add_column placeholder w)) !!! l =
    (store w !!! l) ++ [placeholder].
Proof.
  intros Hinv Hl. pose proof Hinv as (Hnd & _ & _).
  destruct (table_inv_rows w l Hinv Hl) as [Hlt _].
  rewrite add_column_eq by done. cbn [snd store].
  by rewrite (update_rows_at (fun r => r ++ [placeholder])).
Qed.

Lemma delete_last {A} (xs : list A) x : delete (length xs) (xs ++ [x]) = xs.
Proof. by rewrite delete_middle, app_nil_r. Qed.
End TableColumnFacts.

(** X16: on a table a program can hold, after [add_column(placeholder)]
    every row has the placeholder in its last cell: [get_column] at a row
    index in range and at column [-1], or at the old value of [columns],
    returns it. *)
Theorem add_column_get_column {Obj : Type} (w : @world Obj)
    (placeholder : cell Obj) (row_index : Z) (i : nat) :
  reachable w ->
  py_index (length (contents w)) row_index = Some i ->
  let w' := snd (add_column placeholder w) in
  get_column row_index (-1) w' = (Ok placeholder, w') /\
  get_column row_index (Table__columns (self w)) w' = (Ok placeholder, w').
Proof.
  intros Hr Hi w'. pose proof (reachable_table_inv w Hr) as Hinv.
  rewrite length_contents in Hi.
  destruct (subscript_in_range _ _ _ Hi) as (l & Hl & Hsub).
  assert (l ∈ Table__table (self w)) as Hin by by eapply list_elem_of_lookup_2.
  destruct (table_inv_rows w l Hinv Hin) as [_ Hlen].
  assert (Table__table (self w') = Table__table (self w)) as Ht.
  { subst w'. rewrite add_column_eq by apply Hinv. done. }
  rewrite !get_column_eq, Ht, Hsub. subst w'.
  rewrite add_column_rows by done.
  rewrite subscript_last, <- Hlen, subscript_length. done.
Qed.

Lemma add_column_get_column_witness :
  reachable table_abx /\
  get_column 1 2 (snd (add_column (Some "z") table_abx)) =
    (Ok (Some "z"), snd (add_column (Some "z") table_abx)).
Proof.
  assert (reachable table_abx) as Hr.
  { apply (reachable_call _ (AddRow [Some "x"])).
    apply (reachable_call _ (AddRow [Some "a"; Some "b"])).
    apply reachable_new. }
  split; [exact Hr|].
  apply (add_column_get_column table_abx (Some "z") 1 1 Hr eq_refl).
Defined.

(** X17: on a table a program can hold, [del_column(-1)] right after
    [add_column] returns normally and gives back the table as it was:
    the same [columns], [rows] and rows. *)
Theorem add_column_del_column {Obj : Type} (w : @world Obj)
    (placeholder : cell Obj) :
  reachable w ->
  let w1 := snd (add_column placeholder w) in
  let w2 := snd (del_column (-1) w1) in
  fst (del_column (-1) w1) = Ok tt /\
  self w2 = self w /\
  contents w2 = contents w.
Proof.
  intros Hr w1 w2. pose proof (reachable_table_inv w Hr) as Hinv.
  pose proof Hinv as (Hnd & Hrows & _).
  assert (forall l, l ∈ Table__table (self w) -> (l < length (store w))%nat)
    as Hlt by (intros l Hl; by apply Hrows).
  assert (w1 = mkWorld
                 (update_rows (fun r => r ++ [placeholder])
                    (Table__table (self w)) (store w))
                 (mkTable (Table__columns (self w) + 1) (Table__rows (self w))
                    (Table__table (self w)))) as Hw1.
  { subst w1. by rewrite add_column_eq. }
  assert (contents w1 = map (fun r => r ++ [placeholder]) (contents w))
    as Hc1.
  { rewrite Hw1, (contents_update_rows _ _ (self w)) by done.
    by destruct w. }
  pose proof (table_inv_add_column placeholder w Hinv) as Hinv1.
  fold w1 in Hinv1. pose proof Hinv1 as (Hnd1 & Hrows1 & _).
  assert (Table__table (self w1) = Table__table (self w)) as Ht1
    by by rewrite Hw1.
  assert (Table__columns (self w1) = Table__columns (self w) + 1) as Hcol1
    by by rewrite Hw1.
  assert (Table__rows (self w1) = Table__rows (self w)) as Hrow1
    by by rewrite Hw1.
  pose proof (del_column_eq (-1) (Z.to_nat (Table__columns (self w1))) w1 Hnd1)
    as Hdel.
  specialize (Hdel ltac:(unfold contents; rewrite Forall_fmap, Forall_forall;
                         intros l Hl; apply Hrows1 in Hl; simpl; lia)).
  subst w2. rewrite Hdel. clear Hdel. rewrite Ht1, Hcol1, Hrow1.
  replace (Table__columns (self w) + 1 - 1) with (Table__columns (self w))
    by lia.
  destruct (Table__table (self w)) as [|l0 ls] eqn:Et.
  { cbn [fst snd self]. split_and!; [done | |].
    - rewrite <- Et. apply table_eta.
    - assert (contents w = []) as -> by (unfold contents; by rewrite Et).
      done. }
  assert (0 <= Table__columns (self w)) as Hcol.
  { destruct (Hrows l0) as [_ <-]; [apply list_elem_of_here | lia]. }
  rewrite py_index_last by lia.
  replace (Z.to_nat (Table__columns (self w) + 1) - 1)%nat
    with (Z.to_nat (Table__columns (self w))) by lia.
  cbn [fst snd self]. rewrite <- Et. split_and!; [done | apply table_eta |].
  rewrite <- Et in Ht1, Hrows. rewrite <- Ht1 at 1.
  rewrite (contents_update_rows _ _ (self w1))
    by (try done; intros l Hl; by apply Hrows1).
  replace (mkWorld (store w1) (self w1)) with w1 by by destruct w1.
  rewrite Hc1, map_map. rewrite <- (map_id (contents w)) at 2.
  apply map_ext_in. intros r Hin%list_elem_of_In.
  unfold contents in Hin. apply list_elem_of_fmap in Hin as (l & -> & Hl).
  destruct (Hrows l Hl) as [_ Hlen].
  replace (Z.to_nat (Table__columns (self w)))
    with (length (store w !!! l)) by lia.
  apply delete_last.
Qed.

Lemma add_column_del_column_witness :
  reachable table_abx /\
  contents (snd (del_column (-1) (snd (add_column (Some "z") table_abx)))) =
    [[Some "a"; Some "b"]; [Some "x"; None]].
Proof.
  assert (reachable table_abx) as Hr.
  { apply (reachable_call _ (AddRow [Some "x"])).
    apply (reachable_call _ (AddRow [Some "a"; Some "b"])).
    apply reachable_new. }
  split; [exact Hr|].
  destruct (add_column_del_column table_abx (Some "z") Hr) as (_ & _ & ->).
  reflexivity.
Defined.

(** X18: [get_row] hands out the row object the table keeps, not a copy:
    on a table a program can hold, what is behind the reference it
    returned shows a later [set_column] on that row and a later
    [add_column], and [get_row] goes on returning it. *)
Theorem get_row_is_live {Obj : Type} (w : @world Obj)
    (row_index column_index : Z) (info placeholder : cell Obj)
    (l : ref) (k : nat) :
  reachable w ->
  get_row row_index w = (Ok l, w) ->
  py_index (length (store w !!! l)) column_index = Some k ->
  let w' := snd (set_column info row_index column_index w) in
  store w' !!! l = <[k := info]> (store w !!! l) /\
  get_row row_index w' = (Ok l, w') /\
  store (snd (add_column placeholder w)) !!! l =
    store w !!! l ++ [placeholder].
Proof.
  intros Hr Hget Hk w'. pose proof (reachable_table_inv w Hr) as Hinv.
  rewrite get_row_eq in Hget.
  destruct (subscript (Table__table (self w)) row_index) as [l'|] eqn:Hsub;
    [|done].
  injection Hget as ->.
  destruct (subscript_Some _ _ _ Hsub) as (i & _ & Hi).
  assert (l ∈ Table__table (self w)) as Hin by by eapply list_elem_of_lookup_2.
  destruct (table_inv_rows w l Hinv Hin) as [Hlt _].
  assert (w' = mkWorld (<[l := <[k := info]> (store w !!! l)]> (store w))
                 (self w)) as Hw'.
  { subst w'. by rewrite set_column_eq, Hsub, Hk. }
  split_and!.
  - rewrite Hw'. cbn [store]. by rewrite list_lookup_total_insert_eq.
  - rewrite get_row_eq, Hw'. cbn [self]. by rewrite Hsub.
  - by apply add_column_rows.
Qed.

Lemma get_row_is_live_witness :
  reachable table_abx /\
  store (snd (set_column (Some "y") 1 1 table_abx)) !!! 1%nat =
    [Some "x"; Some "y"].
Proof.
  assert (reachable table_abx) as Hr.
  { apply (reachable_call _ (AddRow [Some "x"])).
    apply (reachable_call _ (AddRow [Some "a"; Some "b"])).
    apply reachable_new. }
  split; [exact Hr|].
  apply (get_row_is_live table_abx 1 1 (Some "y") None 1%nat 1%nat Hr
           eq_refl eq_refl).
Defined.

(** X19: [set_column] and [get_column] with a row index out of range, or
    with a column index out of range for that row, raise [IndexError] and
    change nothing. *)
Theorem column_access_out_of_range {Obj : Type} (w : @world Obj)
    (info : cell Obj) (row_index column_index : Z) :
  py_index (length (contents w)) row_index = None \/
  (exists i cells,
     py_index (length (contents w)) row_index = Some i /\
     contents w !! i = Some cells /\
     py_index (length cells) column_index = None) ->
  set_column info row_index column_index w = (Raise IndexError, w) /\
  get_column row_index column_index w = (Raise IndexError, w).
Proof.
  rewrite length_contents, set_column_eq, get_column_eq.
  intros [Hr | (i & cells & Hr & Hcells & Hc)].
  - unfold subscript. rewrite Hr. split; reflexivity.
  - rewrite contents_lookup in Hcells.
    destruct (Table__table (self w) !! i) as [l|] eqn:Hl; [|done].
    cbn in Hcells. injection Hcells as <-.
    unfold subscript. rewrite Hr, Hl. cbn beta iota.
    rewrite Hc. split; reflexivity.
Qed.

Lemma column_access_out_of_range_witness :
  py_index (length (contents table_abx)) 2 = None /\
  get_column 2 0 table_abx = (Raise IndexError, table_abx) /\
  set_column (Some "y") 0 (-3) table_abx = (Raise IndexError, table_abx).
Proof.
  split; [reflexivity|]. split.
  - apply (column_access_out_of_range table_abx None 2 0).
    left. reflexivity.
  - apply (column_access_out_of_range table_abx (Some "y") 0 (-3)).
    right. exists 0%nat, [Some "a"; Some "b"]. by split_and!.
Defined.
